(** * nri-navigator maintenance scripts: a shallow embedding

    The three command-line tools under [scripts/] (the description generator,
    the link checker and the logo tool) are embedded as Rocq functions, and
    the properties their specification states are proved about them.

    - [Py]: the slice of Python's [str], [re] and [urllib.parse] the scripts call.
    - [Dataset]: the nested YAML document (category, term group, link entry).
    - [Run]: a state monad for prints, file writes, in-memory mutation and
      [sys.exit], and the completion order of a thread pool's futures.
    - [DescriptionGenerator], [LinkChecker], [LogoTool]: the scripts. *)

From Stdlib Require Import ZArith NArith QArith Ascii String Permutation Lia.
From stdpp Require Import base option list gmap strings pretty.

Local Open Scope Z_scope.

(* ===================================================================== *)
(** ** Python strings and the library calls the scripts make *)
(* ===================================================================== *)

Module Py.

(** A Python [str] is a sequence of Unicode code points: [len], slicing and
    [strip] count code points, never bytes. *)
Definition char : Type := N.
Definition str : Type := list char.

(** An ASCII literal of the source, as code points. *)
Definition lit (s : string) : str :=
  (fun a : ascii => N_of_ascii a) <$> String.list_ascii_of_string s.

(** [Py_UNICODE_ISSPACE]: the characters removed by [str.strip()] and
    matched by [\s] in a [str] pattern. *)
Definition isspace (c : char) : bool :=
  (((9 <=? c) && (c <=? 13)) || ((28 <=? c) && (c <=? 32))
   || (c =? 133) || (c =? 160) || (c =? 5760)
   || ((8192 <=? c) && (c <=? 8202))
   || (c =? 8232) || (c =? 8233) || (c =? 8239) || (c =? 8287)
   || (c =? 12288))%N.

Fixpoint lstrip (s : str) : str :=
  match s with
  | c :: s' => if isspace c then lstrip s' else s
  | [] => []
  end.

Definition rstrip (s : str) : str := reverse (lstrip (reverse s)).

(** [s.strip()] *)
Definition strip (s : str) : str := rstrip (lstrip s).

(** [len(s)] *)
Definition len (s : str) : Z := Z.of_nat (length s).

(** [s.startswith(p)] *)
Fixpoint startswith (s p : str) {struct p} : bool :=
  match p, s with
  | [], _ => true
  | a :: p', b :: s' => (a =? b)%N && startswith s' p'
  | _ :: _, [] => false
  end.

(** [s.endswith(p)] *)
Definition endswith (s p : str) : bool := startswith (reverse s) (reverse p).

(** [needle in hay] *)
Fixpoint contains (needle hay : str) : bool :=
  startswith hay needle ||
  match hay with
  | [] => false
  | _ :: hay' => contains needle hay'
  end.

(** [re.sub(r'\s+', ' ', s)]: every maximal run of whitespace becomes one
    space. [in_run] says that the previous character was whitespace. *)
Fixpoint collapse (in_run : bool) (s : str) : str :=
  match s with
  | [] => []
  | c :: s' =>
      if isspace c
      then (if in_run then collapse true s' else 32%N :: collapse true s')
      else c :: collapse false s'
  end.

Definition re_sub_spaces (s : str) : str := collapse false s.

(** [str(n)] for an integer. *)
Definition str_of_Z (n : Z) : str := lit (pretty n).

(** The library functions whose full behaviour lies outside the scripts:
    [str.lower] (Unicode case mapping) and [urllib.parse.urlparse(u).netloc],
    which raises [ValueError] on some inputs ([None] here). The scripts are
    embedded over any such pair; [cpython] below is the instance used to run
    them on concrete ASCII inputs. *)
Class Lib : Type := {
  lower : str -> str;
  urlparse_netloc : str -> option str
}.

(** *** A model of the two library functions *)

Definition lower_char (c : char) : char :=
  if ((65 <=? c) && (c <=? 90))%N then (c + 32)%N else c.

(** [str.lower] on ASCII text: the letters [A-Z] are mapped, every other
    code point is left as it is. On text with code points above 127 this
    is not [str.lower], which maps the upper-case letters of every
    script. *)
Definition ascii_lower (s : str) : str := lower_char <$> s.

(** The text on which [ascii_lower] is [str.lower]. *)
Definition is_ascii (s : str) : bool := forallb (fun c => c <? 128)%N s.

Definition is_ascii_alpha (c : char) : bool :=
  (((65 <=? c) && (c <=? 90)) || ((97 <=? c) && (c <=? 122)))%N.

(** [urllib.parse.scheme_chars]: letters, digits and [+-.] *)
Definition scheme_char (c : char) : bool :=
  (is_ascii_alpha c || ((48 <=? c) && (c <=? 57))
   || (c =? 43) || (c =? 45) || (c =? 46))%N.

(** [s.find(c)] *)
Fixpoint find_char (c : char) (s : str) : option nat :=
  match s with
  | [] => None
  | d :: s' => if (c =? d)%N then Some 0%nat else S <$> find_char c s'
  end.

(** [url.lstrip(_WHATWG_C0_CONTROL_OR_SPACE)] *)
Fixpoint lstrip_c0 (s : str) : str :=
  match s with
  | c :: s' => if (c <=? 32)%N then lstrip_c0 s' else s
  | [] => []
  end.

(** Tab, carriage return and line feed are removed from the whole URL. *)
Definition is_unsafe (c : char) : bool :=
  ((c =? 9) || (c =? 13) || (c =? 10))%N.

Definition remove_unsafe (s : str) : str :=
  List.filter (fun c => negb (is_unsafe c)) s.

(** The scheme, when the text before the first colon is one, is cut off. *)
Definition after_scheme (url : str) : str :=
  match url, find_char 58%N url with
  | c0 :: _, Some i =>
      if (0 <? i)%nat && is_ascii_alpha c0 && forallb scheme_char (take i url)
      then drop (S i) url
      else url
  | _, _ => url
  end.

Definition is_delim (c : char) : bool :=
  ((c =? 47) || (c =? 63) || (c =? 35))%N.

(** [_splitnetloc(url, 2)]: up to the first of [/ ? #]. *)
Fixpoint take_netloc (s : str) : str :=
  match s with
  | [] => []
  | c :: s' => if is_delim c then [] else c :: take_netloc s'
  end.

Definition has_char (c : char) (s : str) : bool :=
  existsb (fun d => (c =? d)%N) s.

(** [urlsplit(url).netloc] as CPython 3.12 computes it on a URL whose
    network location is ASCII and has no bracketed host. A bracket without
    its partner raises [ValueError]. The validation of a bracketed host and
    the NFKC check of a non-ASCII netloc, which raise on some inputs, are
    not modelled: there this returns the netloc, and nothing below is
    stated about such inputs. *)
Definition urlsplit_netloc (url : str) : option str :=
  let rest := after_scheme (remove_unsafe (lstrip_c0 url)) in
  if startswith rest (lit "//") then
    let netloc := take_netloc (drop 2 rest) in
    if xorb (has_char 91%N netloc) (has_char 93%N netloc)
    then None
    else Some netloc
  else Some [].

(** CPython on ASCII text without bracketed hosts. *)
Definition cpython : Lib :=
  {| lower := ascii_lower; urlparse_netloc := urlsplit_netloc |}.

End Py.

Abbreviation pystr := Py.str.

(* ===================================================================== *)
(** ** The dataset: categories, term groups, link entries *)
(* ===================================================================== *)

Module Dataset.

(** A YAML scalar of a link entry: [null] or a string (Python truthiness:
    [None] and [''] are false, matched as such where the code tests it). *)
Inductive value : Type :=
  | VNone
  | VStr (s : pystr).

#[global] Instance value_eq_dec : EqDecision value.
Proof. solve_decision. Defined.

(** A mapping node. Keys are the UTF-8 text of the YAML key. *)
Abbreviation dict := (gmap string value).

(** [d.get(k)] and [d.get(k, dflt)] *)
Definition get (d : dict) (k : string) : value := default VNone (d !! k).
Definition get_or (d : dict) (k : string) (dflt : value) : value :=
  default dflt (d !! k).

Definition is_none (v : value) : bool :=
  match v with
  | VNone => true
  | VStr _ => false
  end.

(** [f"{v}"] *)
Definition format (v : value) : pystr :=
  match v with
  | VNone => Py.lit "None"
  | VStr s => s
  end.

(** A term group and a category keep their scalar fields in a [dict]; the
    nested sequence ([links], [list]) is [None] when the key is absent. *)
Record term_group : Type := TermGroup {
  tg_fields : dict;
  tg_links : option (list dict)
}.

Record category : Type := Category {
  cat_fields : dict;
  cat_list : option (list term_group)
}.

Abbreviation dataset := (list category).

(** [yaml.safe_load] builds one dict object per mapping node, so a reference
    to a link's dict is the position of that node: category index, term
    group index, link index. *)
Definition ref : Type := (nat * nat * nat)%type.

Definition get_link (data : dataset) (r : ref) : option dict :=
  let '(i, j, k) := r in
  cat ← data !! i;
  groups ← cat_list cat;
  tg ← groups !! j;
  ls ← tg_links tg;
  ls !! k.

(** Mutation of the dict behind a reference. *)
Definition alter_term_group (f : dict -> dict) (k : nat) (tg : term_group) : term_group :=
  TermGroup (tg_fields tg) (alter f k <$> tg_links tg).

Definition alter_category (f : dict -> dict) (j k : nat) (cat : category) : category :=
  Category (cat_fields cat) (alter (alter_term_group f k) j <$> cat_list cat).

Definition alter_link (f : dict -> dict) (r : ref) (data : dataset) : dataset :=
  let '(i, j, k) := r in
  alter (alter_category f j k) i data.

(** [link[k] = v] through a reference. *)
Definition set_field (r : ref) (k : string) (v : value) (data : dataset) : dataset :=
  alter_link (fun d : dict => <[k := v]> d) r data.

(** The traversal all three tools share: categories, term groups and links
    in document order, a missing [list] or [links] key contributing nothing. *)
Definition visit : Type := (ref * (category * term_group * dict))%type.

Definition walk_links (i j : nat) (cat : category) (tg : term_group) : list visit :=
  imap (fun k link => ((i, j, k), (cat, tg, link))) (default [] (tg_links tg)).

Definition walk_groups (i : nat) (cat : category) : list visit :=
  mjoin (imap (fun j tg => walk_links i j cat tg) (default [] (cat_list cat))).

Definition walk (data : dataset) : list visit :=
  mjoin (imap walk_groups data).

End Dataset.

(* ===================================================================== *)
(** ** Effects: prints, file writes, in-memory mutation, [sys.exit] *)
(* ===================================================================== *)

Module Run.
Import Dataset.

(** What the file holds when a tool loads it. *)
Inductive file_state : Type :=
  | Missing
  | Malformed
  | Holds (data : dataset).

Inductive event (Msg : Type) : Type :=
  | Print (m : Msg)
  | WriteFile (data : dataset) (ok : bool).
Arguments Print {Msg} m.
Arguments WriteFile {Msg} data ok.

(** [memory] is the object graph the local variable [data] refers to. *)
Record world (Msg : Type) : Type := World {
  memory : dataset;
  trace : list (event Msg)
}.
Arguments World {Msg} memory trace.
Arguments memory {Msg} w.
Arguments trace {Msg} w.

Inductive outcome (A : Type) : Type :=
  | Returned (a : A)
  | Exited (code : Z).
Arguments Returned {A} a.
Arguments Exited {A} code.

Definition M (Msg A : Type) : Type := world Msg -> outcome A * world Msg.

Definition ret {Msg A} (a : A) : M Msg A := fun w => (Returned a, w).

Definition bind {Msg A B} (m : M Msg A) (f : A -> M Msg B) : M Msg B :=
  fun w =>
    match m w with
    | (Returned a, w') => f a w'
    | (Exited c, w') => (Exited c, w')
    end.

(** [sys.exit(code)] *)
Definition exit {Msg A} (code : Z) : M Msg A := fun w => (Exited code, w).

Definition print {Msg} (m : Msg) : M Msg unit :=
  fun w => (Returned tt, World (memory w) (trace w ++ [Print m])).

Definition set_memory {Msg} (d : dataset) : M Msg unit :=
  fun w => (Returned tt, World d (trace w)).

Definition mutate {Msg} (f : dataset -> dataset) : M Msg unit :=
  fun w => (Returned tt, World (f (memory w)) (trace w)).

(** [with open(path, 'w') as f: yaml.dump(data, f, ...)]: the environment
    decides whether the write succeeds; the result says whether it raised. *)
Definition dump {Msg} (write_ok : dataset -> bool) : M Msg bool :=
  fun w =>
    let ok := write_ok (memory w) in
    (Returned ok, World (memory w) (trace w ++ [WriteFile (memory w) ok])).

(** The writes of the file a trace records, oldest first. *)
Definition writes {Msg} (tr : list (event Msg)) : list (dataset * bool) :=
  omap (fun e => match e with WriteFile d ok => Some (d, ok) | Print _ => None end) tr.

(** The order in which a pool's futures complete is the scheduler's: at
    every step [sched] picks, among the items still pending, the one that
    completes next. *)
Fixpoint complete {A} (n : nat) (sched : nat -> nat) (pending : list A) : list A :=
  match n with
  | O => []
  | S n' =>
      match pending !! (sched n' mod length pending)%nat with
      | Some x => x :: complete n' sched (delete (sched n' mod length pending)%nat pending)
      | None => []
      end
  end.

Definition as_completed {A} (sched : nat -> nat) (items : list A) : list A :=
  complete (length items) sched items.

(** A value, or a raised exception. *)
Inductive raising (A : Type) : Type :=
  | Value (a : A)
  | Raises.
Arguments Value {A} a.
Arguments Raises {A}.

End Run.

Declare Scope run_scope.
Delimit Scope run_scope with run.
Notation "'do' x <- m ; k" := (Run.bind m (fun x => k))
  (at level 10, x name, m at level 100, k at level 200) : run_scope.
Notation "'do' ' p <- m ; k" := (Run.bind m (fun x => match x with p => k end))
  (at level 10, p pattern, m at level 100, k at level 200) : run_scope.

(* ===================================================================== *)
(** ** scripts/description_generator.py *)
(* ===================================================================== *)

Module DescriptionGenerator.
Import Dataset Run.

(** The dict [extract_website_info] returns: [status] is ['error'] (with
    the error text) or ['success'] (with the scraped fields, each a string
    or [None]). *)
Record page : Type := Page {
  title : option pystr;
  meta_description : option pystr;
  og_description : option pystr;
  og_title : option pystr;
  meta_keywords : option pystr;
  main_text : option pystr
}.

Inductive website_info : Type :=
  | InfoError (error : pystr)
  | InfoSuccess (p : page).

(** [desc and len(desc.strip()) > 10] *)
Definition usable (desc : option pystr) : bool :=
  match desc with
  | Some (c :: d) => 10 <? Py.len (Py.strip (c :: d))
  | _ => false
  end.

(** The body of the loop once a source passed the test. *)
Definition clean (desc : pystr) : pystr :=
  let cleaned_desc := Py.strip (Py.re_sub_spaces desc) in
  if 100 <? Py.len cleaned_desc
  then take 100 cleaned_desc ++ Py.lit "..."
  else cleaned_desc.

(** [for desc in description_sources: if ...: return cleaned_desc] *)
Fixpoint first_description (description_sources : list (option pystr)) : option pystr :=
  match description_sources with
  | [] => None
  | desc :: rest =>
      if usable desc
      then clean <$> desc
      else first_description rest
  end.

Definition description_sources (p : page) : list (option pystr) :=
  [meta_description p; og_description p; og_title p; title p; main_text p].

Section WithLib.
Context {py : Py.Lib}.

Definition generate_description (info : website_info) (title : value) (url : pystr)
  : raising (option pystr) :=
  match info with
  | InfoError _ => Value None
  | InfoSuccess p =>
      match first_description (description_sources p) with
      | Some cleaned_desc => Value (Some cleaned_desc)
      | None =>
          match Py.urlparse_netloc url with
          | Some domain => Value (Some (format title ++ Py.lit " - " ++ domain))
          | None => Raises
          end
      end
  end.

(** An element of [links_to_update]; [link_obj] is the reference to the
    link's dict. *)
Record work_item : Type := WorkItem {
  wi_category : value;
  wi_term : value;
  wi_title : value;
  wi_url : pystr;
  link_obj : ref
}.

Definition select (only_null : bool) (v : visit) : option work_item :=
  let '(r, (cat, tg, link)) := v in
  if only_null && negb (is_none (get link "description")) then None
  else
    match get link "url" with
    | VStr (c :: u) =>
        Some (WorkItem (get (cat_fields cat) "taxonomy") (get (tg_fields tg) "term")
                       (get link "title") (c :: u) r)
    | _ => None
    end.

Definition links_to_update (only_null : bool) (data : dataset) : list work_item :=
  omap (select only_null) (walk data).

Inductive message : Type :=
  | MsgNotFound
  | MsgYamlError
  | MsgFound (n : nat)
  | MsgUpdated (title : value) (description : pystr)
  | MsgUnreachable (title : value)
  | MsgException (title : value)
  | MsgSaved
  | MsgSaveFailed.

Record counts : Type := Counts {
  updated : Z;
  failed : Z;
  total : Z
}.

Section WithEnvironment.
(** The file at [webstack_file], whether writing it back succeeds, what the
    future submitted for a work item yields ([extract_website_info]'s dict,
    or an exception out of [future.result()]), and the scheduler. *)
Variable file : file_state.
Variable write_ok : dataset -> bool.
Variable future_result : work_item -> raising website_info.
Variable sched : nat -> nat.

Definition load_webstack_data : M message dataset :=
  match file with
  | Holds data => (do _ <- set_memory data; ret data)%run
  | Missing => (do _ <- print MsgNotFound; exit 1)%run
  | Malformed => (do _ <- print MsgYamlError; exit 1)%run
  end.

(** One iteration of the [as_completed] loop, on the pair of counters. *)
Definition handle (link : work_item) (c : Z * Z) : M message (Z * Z) :=
  let '(updated_count, failed_count) := c in
  match future_result link with
  | Value website_info =>
      match generate_description website_info (wi_title link) (wi_url link) with
      | Value (Some description) =>
          (do _ <- mutate (set_field (link_obj link) "description" (VStr description));
           do _ <- print (MsgUpdated (wi_title link) description);
           ret (updated_count + 1, failed_count))%run
      | Value None =>
          (do _ <- print (MsgUnreachable (wi_title link));
           ret (updated_count, failed_count + 1))%run
      | Raises =>
          (do _ <- print (MsgException (wi_title link));
           ret (updated_count, failed_count + 1))%run
      end
  | Raises =>
      (do _ <- print (MsgException (wi_title link));
       ret (updated_count, failed_count + 1))%run
  end.

Fixpoint drain (completed : list work_item) (c : Z * Z) : M message (Z * Z) :=
  match completed with
  | [] => ret c
  | link :: rest => (do c' <- handle link c; drain rest c')%run
  end.

Definition update_descriptions (only_null : bool) : M message counts :=
  (do data <- load_webstack_data;
   let todo := links_to_update only_null data in
   do _ <- print (MsgFound (length todo));
   do ' (updated_count, failed_count) <- drain (as_completed sched todo) (0, 0);
   do saved <- dump write_ok;
   if saved : bool then
     do _ <- print MsgSaved;
     ret (Counts updated_count failed_count (Z.of_nat (length todo)))
   else
     do _ <- print MsgSaveFailed;
     ret (Counts 0 (Z.of_nat (length todo)) (Z.of_nat (length todo))))%run.

End WithEnvironment.
End WithLib.

(** *** [extract_website_info], after the page has been parsed *)

(** [str.splitlines()]: the line boundaries of Python, a carriage return
    followed by a line feed counting once; no empty last line. [cur] is the
    line being read, last character first. *)
Definition is_linebreak (c : Py.char) : bool :=
  ((c =? 10) || (c =? 13) || (c =? 11) || (c =? 12) || (c =? 28) || (c =? 29)
   || (c =? 30) || (c =? 133) || (c =? 8232) || (c =? 8233))%N.

Fixpoint splitlines_go (cur : pystr) (s : pystr) : list pystr :=
  match s with
  | [] => match cur with [] => [] | _ => [reverse cur] end
  | c :: s' =>
      if is_linebreak c then
        reverse cur ::
          match s' with
          | d :: s'' => if ((c =? 13) && (d =? 10))%N then splitlines_go [] s''
                        else splitlines_go [] s'
          | [] => splitlines_go [] s'
          end
      else splitlines_go (c :: cur) s'
  end.

Definition splitlines (s : pystr) : list pystr := splitlines_go [] s.

(** [line.split("  ")]: cut at every pair of spaces, left to right. *)
Fixpoint split_double_space_go (cur : pystr) (s : pystr) : list pystr :=
  match s with
  | [] => [reverse cur]
  | c :: s' =>
      match s' with
      | d :: s'' =>
          if ((c =? 32) && (d =? 32))%N then reverse cur :: split_double_space_go [] s''
          else split_double_space_go (c :: cur) s'
      | [] => split_double_space_go (c :: cur) s'
      end
  end.

Definition split_double_space (s : pystr) : list pystr := split_double_space_go [] s.

(** [sep.join(parts)] *)
Fixpoint join (sep : pystr) (parts : list pystr) : pystr :=
  match parts with
  | [] => []
  | [x] => x
  | x :: rest => x ++ sep ++ join sep rest
  end.

(** The cleaning of [soup.get_text()]: strip every line, cut it at double
    spaces, strip the phrases, drop the empty ones, join with one space. *)
Definition chunks (text : pystr) : list pystr :=
  List.filter (fun chunk => match chunk with [] => false | _ => true end)
    (Py.strip <$> (splitlines text ≫= (fun line => split_double_space (Py.strip line)))).

Definition clean_text (text : pystr) : pystr := join (Py.lit " ") (chunks text).

(** [main_text]: kept when longer than 50 characters, cut to 200 with an
    ellipsis when longer than that. *)
Definition main_text_of (body_text : pystr) : option pystr :=
  let text := clean_text body_text in
  if 50 <? Py.len text then
    Some (if 200 <? Py.len text then take 200 text ++ Py.lit "..." else text)
  else None.

(** What the parser found: the title tag's string, the [content] attribute
    of each [meta] tag looked up ([None] when the tag or the attribute is
    missing), and the text of the page without scripts and styles. *)
Record scraped : Type := Scraped {
  title_string : option pystr;
  description_content : option pystr;
  keywords_content : option pystr;
  og_description_content : option pystr;
  og_title_content : option pystr;
  body_text : pystr
}.

(** [x.strip() if x else None] *)
Definition stripped_field (x : option pystr) : option pystr :=
  match x with
  | Some (c :: s) => Some (Py.strip (c :: s))
  | _ => None
  end.

Definition page_of (s : scraped) : page :=
  Page (stripped_field (title_string s))
       (stripped_field (description_content s))
       (stripped_field (og_description_content s))
       (stripped_field (og_title_content s))
       (stripped_field (keywords_content s))
       (main_text_of (body_text s)).

(** The request and the parse: an exception of [requests], any other
    exception (reported with the prefix of the second handler), or the
    parsed page. *)
Inductive fetched : Type :=
  | RequestFailed (error : pystr)
  | ParseFailed (error : pystr)
  | Parsed (s : scraped).

(** The prefix of the second handler's message, as code points. *)
Definition parse_error_prefix : pystr := [35299; 26512; 38169; 35823; 58; 32]%N.

Section WithFetch.
Context {py : Py.Lib}.
Variable fetch : pystr -> fetched.

Definition extract_website_info (url : pystr) : website_info :=
  match fetch url with
  | RequestFailed e => InfoError e
  | ParseFailed e => InfoError (parse_error_prefix ++ e)
  | Parsed s => InfoSuccess (page_of s)
  end.

Definition generate_single_description (url : pystr) : raising (option pystr) :=
  generate_description (extract_website_info url) (VStr []) url.

End WithFetch.

End DescriptionGenerator.

(* ===================================================================== *)
(** ** scripts/link_checker.py *)
(* ===================================================================== *)

Module LinkChecker.
Import Dataset Run.

(** The value of a result's ['status'] key. *)
Inductive status : Type :=
  | Success
  | Redirect
  | HttpError
  | Timeout
  | SslError
  | DnsError
  | ConnectionError
  | InvalidUrl
  | UnknownError.

Definition status_name (s : status) : string :=
  match s with
  | Success => "success"
  | Redirect => "redirect"
  | HttpError => "http_error"
  | Timeout => "timeout"
  | SslError => "ssl_error"
  | DnsError => "dns_error"
  | ConnectionError => "connection_error"
  | InvalidUrl => "invalid_url"
  | UnknownError => "unknown_error"
  end.

(** An element of [extract_all_links]' list. *)
Record link_info : Type := LinkInfo {
  li_url : pystr;
  li_title : value;
  li_category : pystr
}.

(** The dict [check_single_link] returns. *)
Record result : Type := Result {
  r_url : pystr;
  r_title : value;
  r_category : pystr;
  r_status : status;
  r_status_code : option Z;
  r_response_time : option Q;
  r_final_url : option pystr;
  r_error : option pystr
}.

(** [self.stats] and [self.failed_links]. *)
Record checker : Type := Checker {
  stats : gmap string Z;
  failed_links : list result
}.

(** [__init__]: every counter the tool ever touches starts at zero. *)
Definition initial_stats : gmap string Z :=
  list_to_map
    [("total", 0); ("success", 0); ("failed", 0); ("timeout", 0);
     ("redirect", 0); ("ssl_error", 0); ("dns_error", 0); ("unknown_error", 0)].

Definition init : checker := Checker initial_stats [].

(** [self.stats[key]] and [self.stats[key] += 1] *)
Definition counter (c : checker) (key : string) : Z := default 0 (stats c !! key).

Definition incr (key : string) (c : checker) : checker :=
  Checker (<[key := counter c key + 1]> (stats c)) (failed_links c).

(** [self.failed_links.append(result)] *)
Definition append_failed (r : result) (c : checker) : checker :=
  Checker (stats c) (failed_links c ++ [r]).

(** What [self.session.get(url, timeout=..., ...)] does: a response (its
    status code, its final URL, and the rounded time the call took), or one
    of the exceptions the function tells apart, in the order of its
    [except] clauses. The times are the clock readings of the handlers. *)
Inductive get_outcome : Type :=
  | Response (status_code : Z) (url : pystr) (elapsed : Q)
  | RaisesTimeout
  | RaisesSSLError (elapsed : Q)
  | RaisesConnectionError (message : pystr) (elapsed : Q)
  | RaisesOther (message : pystr) (elapsed : Q).

Definition normalize_url (url : pystr) : option pystr :=
  match url with
  | [] => None
  | _ =>
      let url := Py.strip url in
      if Py.startswith url (Py.lit "http://") || Py.startswith url (Py.lit "https://")
      then Some url
      else Some (Py.lit "https://" ++ url)
  end.

Definition china_suffixes : list pystr :=
  Py.lit <$> [".cn"; ".com.cn"; ".net.cn"; ".org.cn"; ".gov.cn"; ".edu.cn"]%string.

Section WithLib.
Context {py : Py.Lib}.

Definition is_china_domain (url : pystr) : bool :=
  match url with
  | [] => false
  | _ =>
      match Py.urlparse_netloc url with
      | Some netloc =>
          let domain := Py.lower netloc in
          existsb (fun suffix => Py.endswith domain suffix) china_suffixes
      | None => false
      end
  end.

(** From the response or the exception to the result dict and the updated
    counters: the body of [check_single_link] after the request. *)
Definition record_outcome (link_info : link_info) (url : pystr) (timeout : Z)
    (o : get_outcome) (c : checker) : result * checker :=
  match o with
  | Response status_code response_url elapsed =>
      let final_url :=
        if decide (response_url = url) then None else Some response_url in
      let result st error :=
        Result (li_url link_info) (li_title link_info) (li_category link_info)
               st (Some status_code) (Some elapsed) final_url error in
      if status_code =? 200 then
        (result Success None, incr "success" c)
      else if (300 <=? status_code) && (status_code <? 400) then
        (result Redirect None, incr "redirect" c)
      else
        let r := result HttpError (Some (Py.lit "HTTP " ++ Py.str_of_Z status_code)) in
        (r, append_failed r (incr "failed" c))
  | RaisesTimeout =>
      let r :=
        Result (li_url link_info) (li_title link_info) (li_category link_info)
               Timeout None (Some (inject_Z timeout)) None
               (Some (Py.lit "Timeout after " ++ Py.str_of_Z timeout ++ Py.lit "s")) in
      (r, append_failed r (incr "timeout" c))
  | RaisesSSLError elapsed =>
      let r :=
        Result (li_url link_info) (li_title link_info) (li_category link_info)
               SslError None (Some elapsed) None (Some (Py.lit "SSL Certificate Error")) in
      (r, append_failed r (incr "ssl_error" c))
  | RaisesConnectionError error_msg elapsed =>
      let dns :=
        Py.contains (Py.lit "Name or service not known") error_msg
        || Py.contains (Py.lit "getaddrinfo failed") error_msg in
      let st := if dns then DnsError else ConnectionError in
      let c := if dns then incr "dns_error" c else incr "failed" c in
      let r :=
        Result (li_url link_info) (li_title link_info) (li_category link_info)
               st None (Some elapsed) None (Some (Py.lit "Connection failed")) in
      (r, append_failed r c)
  | RaisesOther message elapsed =>
      let r :=
        Result (li_url link_info) (li_title link_info) (li_category link_info)
               UnknownError None (Some elapsed) None (Some message) in
      (r, append_failed r (incr "unknown_error" c))
  end.

Section WithSession.
(** [self.session.get], as a function of the URL and the timeout passed. *)
Variable session_get : pystr -> Z -> get_outcome.

Definition check_single_link (link_info : link_info) (timeout : Z) (c : checker)
  : result * checker :=
  match normalize_url (li_url link_info) with
  | None =>
      (Result (li_url link_info) (li_title link_info) (li_category link_info)
              InvalidUrl None None None (Some (Py.lit "Invalid URL format")), c)
  | Some url =>
      let timeout := if is_china_domain url then 20 else timeout in
      record_outcome link_info url timeout (session_get url timeout) c
  end.

End WithSession.
End WithLib.

(** [self.stats['total'] = len(links)] *)
Definition set_total (n : Z) (c : checker) : checker :=
  Checker (<["total" := n]> (stats c)) (failed_links c).

Section Batch.
Context {py : Py.Lib}.
Variable session_get : pystr -> Z -> get_outcome.
(** The pool runs [check_single_link] on every link. Each call's updates of
    [self.stats] and [self.failed_links] are taken as one step; [sched_run]
    is the order of these steps, [sched_done] the order in which the
    futures complete, which is the order of [results]. A future cannot
    raise here: [check_single_link] catches every exception of the request,
    and the URL is a string. *)
Variable sched_run : nat -> nat.
Variable sched_done : nat -> nat.
Variable verbose : bool.

Fixpoint run_checks (links : list link_info) (c : checker) : checker :=
  match links with
  | [] => c
  | link :: rest => run_checks rest (check_single_link session_get link 10 c).2
  end.

(** The progress line slices the title, [result['title'][:40]]: on a [null]
    title this raises inside the [try], after the result was appended, and
    the handler adds one to [unknown_error]. *)
Definition progress_raises (r : result) : bool :=
  verbose && match r_title r with VNone => true | VStr _ => false end.

Definition after_progress (c : checker) (r : result) : checker :=
  if progress_raises r then incr "unknown_error" c else c.

(** The handler's additions are applied after the calls' updates: the
    counters only grow by one at a time and the handler leaves
    [failed_links] alone, so their order among the calls' steps does not
    show in the final state. *)
Definition check_links_batch (links : list link_info) (c : checker)
  : list result * checker :=
  let c := set_total (Z.of_nat (length links)) c in
  let results :=
    (fun link => (check_single_link session_get link 10 c).1)
      <$> as_completed sched_done links in
  (results, foldl after_progress (run_checks (as_completed sched_run links) c) results).

(** The end of [main], from the links [extract_all_links] found, with
    [verbose = not args.quiet]: status 1 when there are none; otherwise the
    report is generated and written, and an exception there is not caught,
    which ends the interpreter with status 1 ([report_saved] is false);
    otherwise 0 exactly when no link failed. *)
Definition main_exit_code (report_saved : bool) (links : list link_info) : Z :=
  match links with
  | [] => 1
  | _ =>
      let c := (check_links_batch links init).2 in
      if report_saved then
        match failed_links c with
        | [] => 0
        | _ => 1
        end
      else 1
  end.

End Batch.

End LinkChecker.

(* ===================================================================== *)
(** ** scripts/logo_tool.py *)
(* ===================================================================== *)

Module LogoTool.
Import Dataset Run.

(** A favicon API template: text around the [{domain}] placeholder. *)
Inductive segment : Type :=
  | Text (s : string)
  | Domain.

Definition template : Type := list segment.

(** [api_template.format(domain=domain)] *)
Definition format_template (t : template) (domain : pystr) : pystr :=
  concat ((fun seg => match seg with Text s => Py.lit s | Domain => domain end) <$> t).

Definition favicon_apis : list template :=
  [ [Text "https://api.iowen.cn/favicon/"; Domain; Text ".png"];
    [Text "https://t2.gstatic.com/faviconV2?client=SOCIAL&type=FAVICON&fallback_opts=TYPE,SIZE,URL&url=https://";
     Domain; Text "&size=128"];
    [Text "https://www.google.com/s2/favicons?sz=128&domain="; Domain];
    [Text "https://favicons.githubusercontent.com/"; Domain];
    [Text "https://icons.duckduckgo.com/ip3/"; Domain; Text ".ico"];
    [Text "https://favicon.im/"; Domain; Text "?larger=true"];
    [Text "https://api.faviconkit.com/"; Domain; Text "/128"] ].

Definition china_favicon_apis : list template :=
  [ [Text "https://statics.dnspod.cn/proxy_favicon/_/favicon?domain="; Domain];
    [Text "https://api.iowen.cn/favicon/"; Domain; Text ".png"];
    [Text "https://favicon.link/f/"; Domain];
    [Text "https://icon.horse/icon/"; Domain; Text "?size=large"];
    [Text "https://t2.gstatic.com/faviconV2?client=SOCIAL&type=FAVICON&fallback_opts=TYPE,SIZE,URL&url=https://";
     Domain; Text "&size=128"];
    [Text "https://www.google.com/s2/favicons?sz=128&domain="; Domain];
    [Text "https://api.faviconkit.com/"; Domain; Text "/128"] ].

(** [self.china_domains] (a set: only membership is used). *)
Definition china_domains : list pystr :=
  Py.lit <$> [".cn"; ".com.cn"; ".net.cn"; ".org.cn"; ".gov.cn"; ".edu.cn"]%string.

Inductive message : Type :=
  | MsgLoadFailed
  | MsgSaveFailed
  | MsgVerifying
  | MsgFoundLogos (n : nat)
  | MsgStart
  | MsgChecked (valid : bool) (title : pystr)
  | MsgCheckFailed
  | MsgCleaning (n : nat)
  | MsgCleaned
  | MsgSummary (total valid invalid : Z).

(** The tuple [(title, url, logo, link)] of [logos_to_check]. *)
Record logo_item : Type := LogoItem {
  lg_title : value;
  lg_url : value;
  lg_logo : pystr;
  link_ref : ref
}.

Record verify_stats : Type := VerifyStats {
  vs_total : Z;
  vs_valid : Z;
  vs_invalid : Z;
  vs_checked : Z
}.

Section WithLib.
Context {py : Py.Lib}.

(** The message printed when [urlparse] raises is left out; the function
    then returns the empty string. *)
Definition extract_domain (url : pystr) : pystr :=
  let url :=
    if Py.startswith url (Py.lit "http://") || Py.startswith url (Py.lit "https://")
    then url
    else Py.lit "https://" ++ url in
  match Py.urlparse_netloc url with
  | Some netloc =>
      let domain := Py.lower netloc in
      if Py.startswith domain (Py.lit "www.") then drop 4 domain else domain
  | None => []
  end.

Definition is_china_domain (domain : pystr) : bool :=
  let domain := Py.lower domain in
  existsb (fun suffix => Py.endswith domain suffix) china_domains.

(** The branch at the head of [get_favicon_for_domain]: the list of
    templates to try and the timeout of each probe. *)
Definition apis_to_use (domain : pystr) : list template * Z :=
  if is_china_domain domain
  then (china_favicon_apis, 15)
  else (favicon_apis, 10).

Section WithNetwork.
(** [test_favicon_url] and [get_favicon_from_website] talk to the network;
    they enter as what they return. Progress prints are left out. *)
Variable test_favicon_url : pystr -> Z -> bool.
Variable get_favicon_from_website : pystr -> option pystr.

Definition get_favicon_for_domain (domain : pystr) : option pystr :=
  match domain with
  | [] => None
  | _ =>
      let '(apis, timeout) := apis_to_use domain in
      match List.find (fun favicon_url => test_favicon_url favicon_url timeout)
                      ((fun t => format_template t domain) <$> apis) with
      | Some favicon_url => Some favicon_url
      | None =>
          if is_china_domain domain then
            match get_favicon_from_website domain with
            | Some (c :: u) => Some (c :: u)
            | _ => None
            end
          else None
      end
  end.

End WithNetwork.
End WithLib.

Section WithEnvironment.
(** The file, whether writing it back succeeds, what the future submitted
    for an item yields ([test_favicon_url]'s verdict on the logo, or an
    exception out of [future.result()]), and the scheduler. *)
Variable file : file_state.
Variable write_ok : dataset -> bool.
Variable future_result : logo_item -> raising bool.
Variable sched : nat -> nat.

(** Any exception while loading is fatal. *)
Definition load_webstack_data : M message dataset :=
  match file with
  | Holds data => (do _ <- set_memory data; ret data)%run
  | _ => (do _ <- print MsgLoadFailed; exit 1)%run
  end.

(** [save_webstack_data(data)], [data] being the object in memory. *)
Definition save_webstack_data : M message unit :=
  (do saved <- dump write_ok;
   if saved : bool then ret tt
   else do _ <- print MsgSaveFailed; exit 1)%run.

(** [if logo and logo.strip()], with [logo = link.get('logo', '')]. *)
Definition select (v : visit) : option logo_item :=
  let '(r, (cat, tg, link)) := v in
  match get_or link "logo" (VStr []) with
  | VStr (c :: l) =>
      match Py.strip (c :: l) with
      | [] => None
      | _ => Some (LogoItem (get_or link "title" (VStr (Py.lit "Unknown")))
                            (get_or link "url" (VStr [])) (c :: l) r)
      end
  | _ => None
  end.

Definition logos_to_check (data : dataset) : list logo_item :=
  omap select (walk data).

(** One iteration of the [as_completed] loop. The progress line slices the
    title, which raises on a [null] title after the counters and the list
    have been updated; the handler then counts the item once more. *)
Definition check_one (item : logo_item) (acc : verify_stats * list logo_item)
  : M message (verify_stats * list logo_item) :=
  let '(st, invalid_logos) := acc in
  match future_result item with
  | Value is_valid =>
      let st := VerifyStats (vs_total st) (vs_valid st) (vs_invalid st) (vs_checked st + 1) in
      let st :=
        if is_valid
        then VerifyStats (vs_total st) (vs_valid st + 1) (vs_invalid st) (vs_checked st)
        else VerifyStats (vs_total st) (vs_valid st) (vs_invalid st + 1) (vs_checked st) in
      let invalid_logos := if is_valid then invalid_logos else invalid_logos ++ [item] in
      match lg_title item with
      | VStr title =>
          (do _ <- print (MsgChecked is_valid (take 40 title));
           ret (st, invalid_logos))%run
      | VNone =>
          (do _ <- print MsgCheckFailed;
           ret (VerifyStats (vs_total st) (vs_valid st) (vs_invalid st + 1) (vs_checked st),
                invalid_logos))%run
      end
  | Raises =>
      (do _ <- print MsgCheckFailed;
       ret (VerifyStats (vs_total st) (vs_valid st) (vs_invalid st + 1) (vs_checked st),
            invalid_logos))%run
  end.

Fixpoint check_all (completed : list logo_item) (acc : verify_stats * list logo_item)
  : M message (verify_stats * list logo_item) :=
  match completed with
  | [] => ret acc
  | item :: rest => (do acc' <- check_one item acc; check_all rest acc')%run
  end.

(** [for title, url, logo, link_ref in invalid_logos: link_ref['logo'] = ''] *)
Definition clear_logos (invalid_logos : list logo_item) (data : dataset) : dataset :=
  foldl (fun d item => set_field (link_ref item) "logo" (VStr []) d) data invalid_logos.

Definition verify_existing_logos : M message verify_stats :=
  (do _ <- print MsgVerifying;
   do data <- load_webstack_data;
   let items := logos_to_check data in
   let st := VerifyStats (Z.of_nat (length items)) 0 0 0 in
   do _ <- print (MsgFoundLogos (length items));
   match items with
   | [] => ret st
   | _ =>
       do _ <- print MsgStart;
       do ' (st, invalid_logos) <- check_all (as_completed sched items) (st, []);
       do _ <- match invalid_logos with
               | [] => ret tt
               | _ =>
                   do _ <- print (MsgCleaning (length invalid_logos));
                   do _ <- mutate (clear_logos invalid_logos);
                   do _ <- save_webstack_data;
                   print MsgCleaned
               end;
       do _ <- print (MsgSummary (vs_total st) (vs_valid st) (vs_invalid st));
       ret st
   end)%run.

End WithEnvironment.

(** *** Probing a favicon URL *)

(** What the tool reads of the answer to a [HEAD] and to a [GET]: the
    status code, the [content-type] and [content-length] headers ([None]
    when absent), the body as text. *)
Record head_response : Type := HeadResponse {
  head_status : Z;
  content_type : option pystr;
  content_length : option pystr
}.

Record get_response : Type := GetResponse {
  get_status : Z;
  text : pystr
}.

(** ['404', 'not found', ..., 'exception', ...]: the four Chinese entries
    as code points. *)
Definition error_indicators : list pystr :=
  [ Py.lit "404"; Py.lit "not found";
    [39029; 38754; 19981; 23384; 22312]%N; [36164; 28304; 19981; 23384; 22312]%N;
    Py.lit "error"; [38169; 35823]%N; Py.lit "exception"; [24322; 24120]%N ].

Inductive quality : Type :=
  | Low
  | Medium
  | High.

(** The dict [check_logo_quality] returns: [valid] false (with the text
    ["HTTP error"], or [None] for the text of an exception), or [valid]
    true with the content type, the file size, the quality and whether a
    warning is attached. *)
Inductive quality_info : Type :=
  | Invalid (error : option pystr)
  | Valid (content_type : pystr) (file_size : option Z) (q : quality) (warning : bool).

Section Probe.
Context {py : Py.Lib}.
(** [self.session.head] and [self.session.get] ([Raises]: any exception),
    and [int] on a header ([None]: [ValueError]). *)
Variable session_head : pystr -> Z -> raising head_response.
Variable session_get : pystr -> Z -> raising get_response.
Variable int_of : pystr -> option Z.

Definition test_favicon_url (favicon_url : pystr) (timeout : Z) : bool :=
  match session_head favicon_url timeout with
  | Raises => false
  | Value response =>
      if negb (head_status response =? 200) then false
      else
        let content_type := Py.lower (default [] (content_type response)) in
        if existsb (fun img_type => Py.contains img_type content_type)
                   [Py.lit "image/"; Py.lit "application/octet-stream"]
        then true
        else if Py.contains (Py.lit "json") content_type
                || Py.contains (Py.lit "html") content_type
        then
          match session_get favicon_url timeout with
          | Raises => false
          | Value get_response =>
              if get_status get_response =? 200 then
                let content := Py.lower (text get_response) in
                if existsb (fun indicator => Py.contains indicator content) error_indicators
                then false
                else if 10000 <? Py.len content then false
                else true
              else true
          end
        else true
  end.

Definition check_logo_quality (logo_url : pystr) : quality_info :=
  match session_head logo_url 10 with
  | Raises => Invalid None
  | Value response =>
      if negb (head_status response =? 200) then Invalid (Some (Py.lit "HTTP error"))
      else
        let parsed :=
          match content_length response with
          | Some (c :: l) => Some <$> int_of (c :: l)
          | _ => Some None
          end in
        match parsed with
        | None => Invalid None
        | Some file_size =>
            let ct := default [] (content_type response) in
            match file_size with
            | Some size =>
                if negb (size =? 0) && (size <? 500) then Valid ct file_size Low true
                else if negb (size =? 0) && (50000 <? size) then Valid ct file_size High false
                else Valid ct file_size Medium false
            | None => Valid ct file_size Medium false
            end
        end
  end.

(** The score of a passing candidate: the size bucket, the position [i]
    (from 1) among the [n] templates, and the bonuses read off the URL. *)
Definition score (n i : nat) (favicon_url : pystr) (file_size : option Z) : Z :=
  (match file_size with
   | Some size =>
       if size =? 0 then 0
       else if (1000 <=? size) && (size <=? 20000) then 50
       else if (500 <=? size) && (size <=? 50000) then 30
       else 10
   | None => 0
   end)
  + (Z.of_nat n - Z.of_nat i) * 5
  + (if Py.contains (Py.lit "faviconkit") favicon_url
        || Py.contains (Py.lit "icon.horse") favicon_url then 20 else 0)
  + (if Py.contains (Py.lit "size=128") favicon_url
        || Py.contains (Py.lit "larger=true") favicon_url then 15 else 0).

(** The score of a candidate that passes the probe and the quality check. *)
Definition candidate_score (n i : nat) (timeout : Z) (favicon_url : pystr) : option Z :=
  if test_favicon_url favicon_url timeout then
    match check_logo_quality favicon_url with
    | Valid _ file_size _ _ => Some (score n i favicon_url file_size)
    | Invalid _ => None
    end
  else None.

(** The loop over [enumerate(apis_to_use, 1)], on the pair
    [(best_favicon, best_quality_score)]. *)
Fixpoint best_loop (n i : nat) (timeout : Z) (urls : list pystr) (best : option pystr * Z)
  : option pystr * Z :=
  match urls with
  | [] => best
  | favicon_url :: rest =>
      let best :=
        match candidate_score n i timeout favicon_url with
        | Some s => if best.2 <? s then (Some favicon_url, s) else best
        | None => best
        end in
      best_loop n (S i) timeout rest best
  end.

Variable get_favicon_from_website : pystr -> option pystr.

Definition get_best_quality_favicon (domain : pystr) : option pystr :=
  match domain with
  | [] => None
  | _ =>
      let '(apis, timeout) := apis_to_use domain in
      let urls := (fun t => format_template t domain) <$> apis in
      match (best_loop (length apis) 1 timeout urls (None, 0)).1 with
      | Some (c :: u) => Some (c :: u)
      | _ => get_favicon_for_domain test_favicon_url get_favicon_from_website domain
      end
  end.

End Probe.

(** *** Filling in the missing logos *)

Inductive update_message : Type :=
  | UMsgLoadFailed
  | UMsgSaveFailed
  | UMsgScanning
  | UMsgAllHaveLogos
  | UMsgFound (n : nat)
  | UMsgPreview (titles : list (value * pystr))
  | UMsgCancelled
  | UMsgStart
  | UMsgFetched (found : bool) (domain : pystr)
  | UMsgFetchFailed (domain : pystr)
  | UMsgUpdating
  | UMsgUpdated (n : Z)
  | UMsgNothingFound
  | UMsgSummary (scanned updated failed : Z).

Record update_stats : Type := UpdateStats {
  total_scanned : Z;
  us_updated : Z;
  us_failed : Z
}.

(** [not logo or logo.strip() == ''], with [logo = link.get('logo', '')]. *)
Definition blank_logo (link : dict) : bool :=
  match get_or link "logo" (VStr []) with
  | VNone => true
  | VStr logo => match Py.strip logo with [] => true | _ => false end
  end.

Section Update.
Context {py : Py.Lib}.

(** [extract_domain(link.get('url', ''))]: on a [null] URL the call of
    [startswith] raises inside the [try], and the function returns ['']. *)
Definition domain_of_link (link : dict) : pystr :=
  match get_or link "url" (VStr []) with
  | VStr url => extract_domain url
  | VNone => []
  end.

Definition missing (v : visit) : option (value * value * pystr) :=
  let '(r, (cat, tg, link)) := v in
  if blank_logo link then
    match domain_of_link link with
    | [] => None
    | domain =>
        Some (get_or link "title" (VStr (Py.lit "Unknown")), get_or link "url" (VStr []), domain)
    end
  else None.

(** The file, the answer typed at the prompt of the preview, whether the
    write succeeds, what the future submitted at a position for a domain
    yields ([get_favicon_for_domain]'s result, or an exception), and the
    scheduler. *)
Variable file : file_state.
Variable answer : pystr.
Variable write_ok : dataset -> bool.
Variable future_result : nat -> pystr -> raising (option pystr).
Variable sched : nat -> nat.

Definition load_for_update : M update_message dataset :=
  match file with
  | Holds data => (do _ <- set_memory data; ret data)%run
  | _ => (do _ <- print UMsgLoadFailed; exit 1)%run
  end.

Definition scan_missing_logos : M update_message (list (value * value * pystr)) :=
  (do data <- load_for_update;
   ret (omap missing (walk data)))%run.

(** [domain_to_favicon], filled as the futures complete: a later
    completion for the same domain replaces an earlier one. *)
Definition record_favicon (table : gmap (list N) (option pystr)) (job : nat * pystr)
  : gmap (list N) (option pystr) :=
  match future_result job.1 job.2 with
  | Value favicon_url => <[job.2 := favicon_url]> table
  | Raises => <[job.2 := None]> table
  end.

Definition fetch_message (job : nat * pystr) : update_message :=
  match future_result job.1 job.2 with
  | Value (Some (_ :: _)) => UMsgFetched true job.2
  | Value _ => UMsgFetched false job.2
  | Raises => UMsgFetchFailed job.2
  end.

Fixpoint print_all (msgs : list update_message) : M update_message unit :=
  match msgs with
  | [] => ret tt
  | m :: rest => (do _ <- print m; print_all rest)%run
  end.

(** The favicon the table holds for a link with a blank logo, if any. *)
Definition favicon_for (table : gmap (list N) (option pystr)) (link : dict) : option pystr :=
  if blank_logo link then
    match table !! domain_of_link link with
    | Some (Some (c :: u)) => Some (c :: u)
    | _ => None
    end
  else None.

(** One step of the loop that updates the dataset, on the pair of
    counters [(updated, failed)]. *)
Definition update_link (table : gmap (list N) (option pystr)) (acc : dataset * (Z * Z))
    (v : visit) : dataset * (Z * Z) :=
  let '(r, (cat, tg, link)) := v in
  let '(data, (updated, failed)) := acc in
  if blank_logo link then
    match favicon_for table link with
    | Some favicon_url => (set_field r "logo" (VStr favicon_url) data, (updated + 1, failed))
    | None => (data, (updated, failed + 1))
    end
  else acc.

Definition save_for_update : M update_message unit :=
  (do saved <- dump write_ok;
   if saved : bool then ret tt
   else do _ <- print UMsgSaveFailed; exit 1)%run.

Definition update_missing_logos_batch (dry_run : bool) : M update_message update_stats :=
  (do _ <- print UMsgScanning;
   do missing_logos <- scan_missing_logos;
   let n := Z.of_nat (length missing_logos) in
   match missing_logos with
   | [] => do _ <- print UMsgAllHaveLogos; ret (UpdateStats n 0 0)
   | _ =>
       do _ <- print (UMsgFound (length missing_logos));
       let declined :=
         dry_run && negb (bool_decide (Py.lower answer = Py.lit "y")) in
       do _ <- (if dry_run
                then print (UMsgPreview ((fun m => (m.1.1, m.2)) <$> missing_logos))
                else ret tt);
       if declined then do _ <- print UMsgCancelled; ret (UpdateStats n 0 0)
       else
         do data <- load_for_update;
         do _ <- print UMsgStart;
         let jobs := as_completed sched (imap (fun i m => (i, m.2)) missing_logos) in
         let table := foldl record_favicon ∅ jobs in
         do _ <- print_all (fetch_message <$> jobs);
         do _ <- print UMsgUpdating;
         let '(updated_data, (updated, failed)) :=
           foldl (update_link table) (data, (0, 0)) (walk data) in
         do _ <- set_memory updated_data;
         do _ <- (if 0 <? updated
                  then do _ <- save_for_update; print (UMsgUpdated updated)
                  else print UMsgNothingFound);
         do _ <- print (UMsgSummary n updated failed);
         ret (UpdateStats n updated failed)
   end)%run.

End Update.

End LogoTool.

(* ===================================================================== *)
(** ** Facts about the library layer *)
(* ===================================================================== *)

Section PyFacts.
Import Py.

Lemma startswith_prefix (s p : pystr) : startswith s p = true <-> p `prefix_of` s.
Proof.
  revert s. induction p as [|a p IH]; intros s; simpl.
  - split; [intros _; apply prefix_nil | done].
  - destruct s as [|b s].
    + split; [done | intros H; by apply prefix_nil_not in H].
    + rewrite andb_true_iff, N.eqb_eq, IH. split.
      * intros [-> H]. by apply prefix_cons.
      * intros H. split; [by apply prefix_cons_inv_1 in H | by apply prefix_cons_inv_2 in H].
Qed.

Lemma endswith_suffix (s p : pystr) : endswith s p = true <-> p `suffix_of` s.
Proof.
  unfold endswith. rewrite startswith_prefix. symmetry. apply suffix_prefix_reverse.
Qed.

Lemma endswith_any (domain : pystr) (suffixes : list pystr) :
  existsb (fun suffix => endswith domain suffix) suffixes = true
  <-> exists suffix, suffix ∈ suffixes /\ suffix `suffix_of` domain.
Proof.
  rewrite existsb_exists. split; intros (x & Hx & H).
  - exists x. split; [by apply list_elem_of_In | by apply endswith_suffix].
  - exists x. split; [by apply list_elem_of_In | by apply endswith_suffix].
Qed.

(** *** The model of [urlparse] on an [https] URL *)

(** A character that stays in the network location: not removed from the
    URL, no delimiter, no bracket. *)
Definition host_char (c : char) : bool :=
  negb (is_unsafe c) && negb (is_delim c) && negb (c =? 91)%N && negb (c =? 93)%N.

(** What may follow the network location: nothing, or a path, a query or a
    fragment. *)
Definition url_tail (rest : pystr) : bool :=
  match rest with
  | [] => true
  | c :: _ => is_delim c
  end.

Lemma remove_unsafe_host host rest :
  forallb host_char host = true ->
  remove_unsafe (host ++ rest) = host ++ remove_unsafe rest.
Proof.
  unfold remove_unsafe. induction host as [|c host IH]; intros H; [done|].
  simpl in H. apply andb_true_iff in H as [Hc H]. simpl.
  unfold host_char in Hc. rewrite !andb_true_iff in Hc. destruct Hc as [[[-> _] _] _].
  simpl. by rewrite IH.
Qed.

Lemma url_tail_remove_unsafe rest : url_tail rest = true -> url_tail (remove_unsafe rest) = true.
Proof.
  destruct rest as [|c rest]; [done|]. simpl. intros Hc.
  assert (is_unsafe c = false) as ->; [|done].
  unfold is_delim in Hc. unfold is_unsafe.
  repeat match goal with
         | H : (_ || _) = true |- _ => apply orb_true_iff in H as [H|H]
         | H : (_ =? _)%N = true |- _ => apply N.eqb_eq in H; subst
         end; done.
Qed.

Lemma take_netloc_host host rest :
  forallb host_char host = true -> url_tail rest = true ->
  take_netloc (host ++ rest) = host.
Proof.
  intros Hhost Hrest. induction host as [|c host IH]; simpl.
  - destruct rest as [|d rest]; [done|]. simpl in *. by rewrite Hrest.
  - simpl in Hhost. apply andb_true_iff in Hhost as [Hc Hhost].
    unfold host_char in Hc. rewrite !andb_true_iff, !negb_true_iff in Hc.
    destruct Hc as [[[_ ->] _] _]. by rewrite IH.
Qed.

Lemma has_char_host host (b : char) :
  (b = 91 \/ b = 93)%N -> forallb host_char host = true -> has_char b host = false.
Proof.
  intros Hb. induction host as [|c host IH]; intros H; [done|].
  simpl in H. apply andb_true_iff in H as [Hc H]. simpl. rewrite IH by done.
  unfold host_char in Hc. rewrite !andb_true_iff, !negb_true_iff in Hc.
  destruct Hc as [[_ H91] H93]. rewrite N.eqb_sym.
  destruct Hb as [-> | ->]; by rewrite ?H91, ?H93.
Qed.

Lemma urlsplit_netloc_https host rest :
  forallb host_char host = true -> url_tail rest = true ->
  urlsplit_netloc (lit "https://" ++ host ++ rest) = Some host.
Proof.
  intros Hhost Hrest. unfold urlsplit_netloc.
  change (lit "https://" ++ host ++ rest)
    with ([104; 116; 116; 112; 115; 58; 47; 47]%N ++ host ++ rest).
  cbn [app lstrip_c0 N.leb]. change (104 <=? 32)%N with false. cbv iota.
  change (remove_unsafe (104 :: 116 :: 116 :: 112 :: 115 :: 58 :: 47 :: 47 :: host ++ rest))%N
    with (104 :: 116 :: 116 :: 112 :: 115 :: 58 :: 47 :: 47 :: remove_unsafe (host ++ rest))%N.
  rewrite remove_unsafe_host by done.
  change (after_scheme (104 :: 116 :: 116 :: 112 :: 115 :: 58 :: 47 :: 47
                        :: host ++ remove_unsafe rest))%N
    with (47 :: 47 :: host ++ remove_unsafe rest)%N.
  change (startswith (47 :: 47 :: host ++ remove_unsafe rest) (lit "//"))%N with true.
  cbv iota. change (drop 2 (47 :: 47 :: host ++ remove_unsafe rest))%N
    with (host ++ remove_unsafe rest).
  rewrite take_netloc_host by auto using url_tail_remove_unsafe.
  by rewrite !has_char_host by auto.
Qed.

End PyFacts.

(* ===================================================================== *)
(** ** Facts about references into the dataset *)
(* ===================================================================== *)

Section DatasetFacts.
Import Dataset.

Lemma get_link_alter_link_eq f r data :
  get_link (alter_link f r data) r = f <$> get_link data r.
Proof.
  destruct r as [[i j] k]. unfold get_link, alter_link. cbn.
  rewrite list_lookup_alter_eq.
  destruct (data !! i) as [[cf [groups|]]|]; simpl; [|done..].
  rewrite list_lookup_alter_eq.
  destruct (groups !! j) as [[tf [ls|]]|]; simpl; [|done..].
  by rewrite list_lookup_alter_eq.
Qed.

Lemma get_link_alter_link_ne f r r' data :
  r <> r' -> get_link (alter_link f r data) r' = get_link data r'.
Proof.
  destruct r as [[i j] k], r' as [[i' j'] k']. intros Hne.
  unfold get_link, alter_link. cbn.
  destruct (decide (i = i')) as [<-|Hi]; [|by rewrite list_lookup_alter_ne].
  rewrite list_lookup_alter_eq.
  destruct (data !! i) as [[cf [groups|]]|]; simpl; [|done..].
  destruct (decide (j = j')) as [<-|Hj]; [|by rewrite list_lookup_alter_ne].
  rewrite list_lookup_alter_eq.
  destruct (groups !! j) as [[tf [ls|]]|]; simpl; [|done..].
  rewrite list_lookup_alter_ne; [done | congruence].
Qed.

Lemma get_link_set_field_eq r k v data :
  get_link (set_field r k v data) r = (fun d : dict => <[k := v]> d) <$> get_link data r.
Proof. apply get_link_alter_link_eq. Qed.

Lemma get_link_set_field_ne r r' k v data :
  r <> r' -> get_link (set_field r k v data) r' = get_link data r'.
Proof. apply get_link_alter_link_ne. Qed.

(** The traversal visits exactly the links a reference reaches, each with
    the category and the term group that hold it. *)
Lemma elem_of_walk (data : dataset) (r : ref) cat tg link :
  (r, (cat, tg, link)) ∈ walk data
  <-> exists groups ls,
        data !! r.1.1 = Some cat /\ cat_list cat = Some groups /\
        groups !! r.1.2 = Some tg /\ tg_links tg = Some ls /\ ls !! r.2 = Some link.
Proof.
  destruct r as [[i j] k]. unfold walk. simpl.
  rewrite list_elem_of_join. split.
  - intros (l & Hin & Hl).
    apply elem_of_lookup_imap in Hl as (i' & cat' & -> & Hcat).
    unfold walk_groups in Hin. apply list_elem_of_join in Hin as (l & Hin & Hl).
    apply elem_of_lookup_imap in Hl as (j' & tg' & -> & Htg).
    unfold walk_links in Hin.
    apply elem_of_lookup_imap in Hin as (k' & link' & Heq & Hlink).
    simplify_eq.
    destruct (cat_list cat') as [groups|] eqn:Hg; simpl in Htg; [|done].
    destruct (tg_links tg') as [ls|] eqn:Hls; simpl in Hlink; [|done].
    by exists groups, ls.
  - intros (groups & ls & Hcat & Hg & Htg & Hls & Hlink).
    exists (walk_groups i cat). split.
    + unfold walk_groups. apply list_elem_of_join.
      exists (walk_links i j cat tg). split.
      * unfold walk_links. rewrite Hls. simpl.
        by apply (elem_of_lookup_imap_2 (fun k link => ((i, j, k), (cat, tg, link)))).
      * rewrite Hg. simpl.
        by apply (elem_of_lookup_imap_2 (fun j tg => walk_links i j cat tg)).
    + by apply (elem_of_lookup_imap_2 walk_groups).
Qed.

Lemma walk_get_link data r cat tg link :
  (r, (cat, tg, link)) ∈ walk data -> get_link data r = Some link.
Proof.
  rewrite elem_of_walk. intros (groups & ls & Hcat & Hg & Htg & Hls & Hlink).
  destruct r as [[i j] k]. unfold get_link. simpl in *.
  rewrite Hcat. simpl. rewrite Hg. simpl. rewrite Htg. simpl. by rewrite Hls.
Qed.

Lemma get_link_walk data r link :
  get_link data r = Some link -> exists cat tg, (r, (cat, tg, link)) ∈ walk data.
Proof.
  destruct r as [[i j] k]. unfold get_link. intros H.
  destruct (data !! i) as [cat|] eqn:Hcat; simpl in H; [|done].
  destruct (cat_list cat) as [groups|] eqn:Hg; simpl in H; [|done].
  destruct (groups !! j) as [tg|] eqn:Htg; simpl in H; [|done].
  destruct (tg_links tg) as [ls|] eqn:Hls; simpl in H; [|done].
  exists cat, tg. apply elem_of_walk. by exists groups, ls.
Qed.

(** A reference is visited once: two visits of one reference are equal. *)
Lemma walk_functional data r x y :
  (r, x) ∈ walk data -> (r, y) ∈ walk data -> x = y.
Proof.
  destruct x as [[cat tg] link], y as [[cat' tg'] link'].
  rewrite !elem_of_walk.
  intros (g & l & ? & ? & ? & ? & ?) (g' & l' & ? & ? & ? & ? & ?).
  by simplify_eq.
Qed.

End DatasetFacts.

(* ===================================================================== *)
(** ** Facts about completion order *)
(* ===================================================================== *)

Section RunFacts.
Import Run.

Lemma complete_Permutation {A} (sched : nat -> nat) (pending : list A) n :
  length pending = n -> complete n sched pending ≡ₚ pending.
Proof.
  revert pending. induction n as [|n IH]; intros pending Hlen; simpl.
  - by destruct pending.
  - destruct (pending !! (sched n mod length pending)%nat) as [x|] eqn:Hx.
    + rewrite IH.
      * symmetry. by apply delete_Permutation.
      * pose proof (lookup_lt_Some _ _ _ Hx). rewrite length_delete; [lia | by eexists].
    + apply lookup_ge_None in Hx.
      pose proof (Nat.mod_upper_bound (sched n) (length pending)). lia.
Qed.

(** Every submitted item completes, once. *)
Lemma as_completed_Permutation {A} (sched : nat -> nat) (items : list A) :
  as_completed sched items ≡ₚ items.
Proof. by apply complete_Permutation. Qed.

Lemma elem_of_as_completed {A} (sched : nat -> nat) (items : list A) x :
  x ∈ as_completed sched items <-> x ∈ items.
Proof. by rewrite as_completed_Permutation. Qed.

Lemma writes_app {Msg} (tr1 tr2 : list (event Msg)) :
  writes (tr1 ++ tr2) = writes tr1 ++ writes tr2.
Proof. apply omap_app. Qed.

Lemma writes_prints {Msg} (msgs : list Msg) : writes (Print <$> msgs) = [].
Proof. induction msgs; [done | by simpl]. Qed.

Lemma writes_print {Msg} (m : Msg) tr : writes (Print m :: tr) = writes tr.
Proof. done. Qed.

Lemma writes_write {Msg} d ok (tr : list (event Msg)) :
  writes (WriteFile d ok :: tr) = (d, ok) :: writes tr.
Proof. done. Qed.

Lemma writes_nil {Msg} : writes (@nil (event Msg)) = [].
Proof. done. Qed.

End RunFacts.

Ltac count_writes :=
  repeat first
    [ rewrite writes_app | rewrite writes_prints | rewrite writes_print
    | rewrite writes_write | rewrite writes_nil | rewrite app_nil_l | rewrite app_nil_r ].

(* ===================================================================== *)
(** ** The link checker *)
(* ===================================================================== *)

(** The suffix list as the specification words it, on a domain. *)
Definition china_suffixed (domain : pystr) : Prop :=
  exists suffix,
    suffix ∈ (Py.lit <$> [".cn"; ".com.cn"; ".net.cn"; ".org.cn"; ".gov.cn"; ".edu.cn"]%string)
    /\ suffix `suffix_of` domain.

Definition example_url : pystr := Py.lit "https://example.com".

Definition example_link : LinkChecker.link_info :=
  LinkChecker.LinkInfo example_url (Dataset.VStr (Py.lit "Example")) (Py.lit "Tools").

Definition example_cn_link : LinkChecker.link_info :=
  LinkChecker.LinkInfo (Py.lit "www.Example.COM.CN/path") (Dataset.VStr (Py.lit "Example"))
                       (Py.lit "Tools").

Section LinkCheckerFacts.
Import Dataset LinkChecker.
Context {py : Py.Lib}.
Variable session_get : pystr -> Z -> get_outcome.

Lemma is_china_domain_true url :
  is_china_domain url = true
  <-> url <> [] /\ exists netloc, Py.urlparse_netloc url = Some netloc
                               /\ china_suffixed (Py.lower netloc).
Proof.
  unfold is_china_domain, china_suffixed. destruct url as [|c u].
  { split; [done | by intros [? _]]. }
  destruct (Py.urlparse_netloc (c :: u)) as [netloc|].
  - rewrite endswith_any. split.
    + intros H. split; [done | by exists netloc].
    + by intros [_ (? & [= <-] & H)].
  - split; [done | by intros [_ (? & ? & _)]].
Qed.

Lemma normalize_url_nonempty raw url : normalize_url raw = Some url -> url <> [].
Proof.
  unfold normalize_url. destruct raw as [|c raw]; [done|].
  destruct (_ || _) eqn:Hs; intros [= <-]; [|done].
  intros Hnil. rewrite Hnil in Hs. by vm_compute in Hs.
Qed.

Lemma counter_incr_eq key c : counter (incr key c) key = counter c key + 1.
Proof. unfold counter, incr. simpl. by rewrite lookup_insert_eq. Qed.

Lemma counter_incr_ne key key' c : key <> key' -> counter (incr key c) key' = counter c key'.
Proof. intros H. unfold counter, incr. simpl. by rewrite lookup_insert_ne. Qed.

(** C1 (as amended). For every response the request returns, the status is
    [success] exactly for status code 200, [redirect] for a code from 300
    to 399, and [http_error] for every other code, the other 2xx codes
    included. *)
Theorem response_status li timeout c url code final elapsed :
  normalize_url (li_url li) = Some url ->
  session_get url (if is_china_domain url then 20 else timeout) = Response code final elapsed ->
  let r := (check_single_link session_get li timeout c).1 in
  (code = 200 -> status_name (r_status r) = "success"%string)
  /\ (300 <= code < 400 -> status_name (r_status r) = "redirect"%string)
  /\ (code <> 200 -> ~ (300 <= code < 400) -> status_name (r_status r) = "http_error"%string).
Proof.
  intros Hurl Hget. unfold check_single_link. rewrite Hurl. cbv zeta. rewrite Hget.
  unfold record_outcome.
  destruct (code =? 200) eqn:H200; [apply Z.eqb_eq in H200 | apply Z.eqb_neq in H200].
  - simpl. split; [done | split; [lia | done]].
  - destruct ((300 <=? code) && (code <? 400)) eqn:H3; simpl.
    + split; [done | split; [done | lia]].
    + split; [done | split; [lia | done]].
Qed.

(** C9. A request that raises a timeout is classified [timeout] (with the
    timeout allotted to its domain as response time), is appended to the
    failed links, and adds one to the [timeout] counter and to no other
    counter, [failed] included. *)
Theorem timeout_is_recorded li timeout c url :
  normalize_url (li_url li) = Some url ->
  session_get url (if is_china_domain url then 20 else timeout) = RaisesTimeout ->
  let r := (check_single_link session_get li timeout c).1 in
  let c' := (check_single_link session_get li timeout c).2 in
  status_name (r_status r) = "timeout"%string
  /\ r_response_time r = Some (inject_Z (if is_china_domain url then 20 else timeout))
  /\ failed_links c' = failed_links c ++ [r]
  /\ counter c' "timeout" = counter c "timeout" + 1
  /\ counter c' "failed" = counter c "failed"
  /\ (forall key, key <> "timeout"%string -> counter c' key = counter c key).
Proof.
  intros Hurl Hget. unfold check_single_link. rewrite Hurl. cbv zeta. rewrite Hget.
  simpl. repeat split.
  - apply (counter_incr_eq "timeout").
  - by apply (counter_incr_ne "timeout").
  - intros key Hkey. apply (counter_incr_ne "timeout"). congruence.
Qed.

(** What the request of [check_single_link] is made with. *)
Lemma check_single_link_china li timeout c url :
  normalize_url (li_url li) = Some url ->
  is_china_domain url = true ->
  check_single_link session_get li timeout c
  = record_outcome li url 20 (session_get url 20) c.
Proof. intros Hurl Hcn. unfold check_single_link. by rewrite Hurl, Hcn. Qed.

Lemma check_single_link_default li timeout c url :
  normalize_url (li_url li) = Some url ->
  is_china_domain url = false ->
  check_single_link session_get li timeout c
  = record_outcome li url timeout (session_get url timeout) c.
Proof. intros Hurl Hcn. unfold check_single_link. by rewrite Hurl, Hcn. Qed.

End LinkCheckerFacts.

(* ===================================================================== *)
(** ** The logo tool: domains and candidate lists *)
(* ===================================================================== *)

(** The URL [extract_domain] parses: the input itself when it starts with
    [http://] or [https://] in lower case, the input behind [https://]
    otherwise. And the removal of one leading [www.]. *)
Definition with_scheme (url : pystr) : pystr :=
  if decide (Py.lit "http://" `prefix_of` url \/ Py.lit "https://" `prefix_of` url)
  then url
  else Py.lit "https://" ++ url.

Definition without_www (domain : pystr) : pystr :=
  if decide (Py.lit "www." `prefix_of` domain) then drop 4 domain else domain.

Section LogoDomainFacts.
Import Dataset LogoTool.
Context {py : Py.Lib}.

Lemma logo_is_china_domain_true domain :
  is_china_domain domain = true <-> china_suffixed (Py.lower domain).
Proof. unfold is_china_domain, china_suffixed. apply endswith_any. Qed.

Lemma logo_is_china_domain_false domain :
  is_china_domain domain = false <-> ~ china_suffixed (Py.lower domain).
Proof. rewrite <- logo_is_china_domain_true. by destruct (is_china_domain domain). Qed.

Lemma extract_domain_eq url :
  extract_domain url
  = match Py.urlparse_netloc (with_scheme url) with
    | Some netloc => without_www (Py.lower netloc)
    | None => []
    end.
Proof.
  unfold extract_domain, with_scheme, without_www.
  assert (Hurl : (if Py.startswith url (Py.lit "http://") || Py.startswith url (Py.lit "https://")
                  then url else Py.lit "https://" ++ url)
                 = (if decide (Py.lit "http://" `prefix_of` url \/ Py.lit "https://" `prefix_of` url)
                    then url else Py.lit "https://" ++ url)).
  { destruct (decide _) as [H|H].
    - rewrite <- !startswith_prefix in H.
      destruct H as [-> | ->]; [done | by rewrite orb_true_r].
    - rewrite <- !startswith_prefix in H.
      destruct (Py.startswith url (Py.lit "http://")); [by destruct H; left|].
      destruct (Py.startswith url (Py.lit "https://")); [by destruct H; right|done]. }
  rewrite Hurl. destruct (Py.urlparse_netloc _) as [netloc|]; [|done].
  destruct (decide (Py.lit "www." `prefix_of` _)) as [H|H].
  - apply startswith_prefix in H. by rewrite H.
  - rewrite <- startswith_prefix in H.
    destruct (Py.startswith (Py.lower netloc) _); [by destruct H | done].
Qed.

Section WithNetwork.
Variable test_favicon_url : pystr -> Z -> bool.
Variable get_favicon_from_website : pystr -> option pystr.

(** The candidates [get_favicon_for_domain] probes, in order, come from the
    list chosen for the domain. *)
Lemma get_favicon_for_domain_china domain :
  domain <> [] ->
  china_suffixed (Py.lower domain) ->
  get_favicon_for_domain test_favicon_url get_favicon_from_website domain
  = match List.find (fun u => test_favicon_url u 15)
                    ((fun t => format_template t domain) <$> china_favicon_apis) with
    | Some u => Some u
    | None => match get_favicon_from_website domain with
              | Some (c :: u) => Some (c :: u)
              | _ => None
              end
    end.
Proof.
  intros Hne Hcn. apply logo_is_china_domain_true in Hcn.
  unfold get_favicon_for_domain, apis_to_use. rewrite Hcn.
  by destruct domain.
Qed.

Lemma get_favicon_for_domain_default domain :
  ~ china_suffixed (Py.lower domain) ->
  get_favicon_for_domain test_favicon_url get_favicon_from_website domain
  = match domain with
    | [] => None
    | _ => List.find (fun u => test_favicon_url u 10)
                     ((fun t => format_template t domain) <$> favicon_apis)
    end.
Proof.
  intros Hcn. apply logo_is_china_domain_false in Hcn.
  unfold get_favicon_for_domain, apis_to_use. rewrite Hcn.
  destruct domain; [done|]. by destruct (List.find _ _).
Qed.

End WithNetwork.
End LogoDomainFacts.

Section DomainClasses.
Context {py : Py.Lib}.
Variable session_get : pystr -> Z -> LinkChecker.get_outcome.
Variable test_favicon_url : pystr -> Z -> bool.
Variable get_favicon_from_website : pystr -> option pystr.


End DomainClasses.

(* ===================================================================== *)
(** ** The description generator: choosing a description *)
(* ===================================================================== *)

(** A candidate passes the length test of the loop. *)
Definition qualifies (candidate : option pystr) : Prop :=
  exists d, candidate = Some d /\ 10 < Py.len (Py.strip d).

Section DescriptionFacts.
Import Dataset Run DescriptionGenerator.

Lemma strip_nil : Py.strip [] = [].
Proof. reflexivity. Qed.

Lemma usable_qualifies candidate : usable candidate = true <-> qualifies candidate.
Proof.
  unfold qualifies. destruct candidate as [[|c d]|]; simpl.
  - split; [done|]. intros (d & [= <-] & H). by rewrite strip_nil in H.
  - rewrite Z.ltb_lt. split; [intros H; by eexists | by intros (? & [= <-] & H)].
  - split; [done | by intros (? & ? & _)].
Qed.

Lemma usable_not_qualifies candidate : usable candidate = false <-> ~ qualifies candidate.
Proof. rewrite <- usable_qualifies. by destruct (usable candidate). Qed.

Lemma first_description_Some sources i d :
  sources !! i = Some (Some d) ->
  qualifies (Some d) ->
  (forall j c, (j < i)%nat -> sources !! j = Some c -> ~ qualifies c) ->
  first_description sources = Some (clean d).
Proof.
  revert i. induction sources as [|c sources IH]; intros i Hi Hd Hbefore; [done|].
  destruct i as [|i]; simpl in *.
  - injection Hi as ->. by rewrite (proj2 (usable_qualifies _) Hd).
  - rewrite (proj2 (usable_not_qualifies c)).
    + apply (IH i); [done..|]. intros j c' Hj. apply (Hbefore (S j)). lia.
    + apply (Hbefore 0%nat); [lia | done].
Qed.

Lemma first_description_None sources :
  (forall c, c ∈ sources -> ~ qualifies c) -> first_description sources = None.
Proof.
  induction sources as [|c sources IH]; intros H; [done|]. simpl.
  rewrite (proj2 (usable_not_qualifies c)); [|apply H; left].
  apply IH. intros c' Hc'. apply H. by right.
Qed.

(** What [clean] does with a long and with a short text. *)
Lemma clean_long d :
  100 < Py.len (Py.strip (Py.re_sub_spaces d)) ->
  clean d = take 100 (Py.strip (Py.re_sub_spaces d)) ++ Py.lit "..."
  /\ Py.len (clean d) = 103.
Proof.
  intros H. unfold clean. rewrite (proj2 (Z.ltb_lt _ _) H). split; [done|].
  unfold Py.len in *. rewrite length_app, length_take.
  change (length (Py.lit "...")) with 3%nat. lia.
Qed.

Lemma clean_short d :
  Py.len (Py.strip (Py.re_sub_spaces d)) <= 100 ->
  clean d = Py.strip (Py.re_sub_spaces d).
Proof. intros H. unfold clean. by rewrite (proj2 (Z.ltb_ge _ _) H). Qed.

Context {py : Py.Lib}.

(** C4. On a fetched page the description is the cleaned text of the first
    candidate, in the order meta description, Open-Graph description,
    Open-Graph title, page title, body text, that passes the length test;
    when none passes it is the entry's title, [" - "] and the URL's network
    location. *)
Theorem first_candidate_in_priority_order (p : page) (title : value) (url : pystr) :
  let candidates :=
    [meta_description p; og_description p; og_title p; DescriptionGenerator.title p; main_text p] in
  (forall i d,
      candidates !! i = Some (Some d) ->
      qualifies (Some d) ->
      (forall j c, (j < i)%nat -> candidates !! j = Some c -> ~ qualifies c) ->
      generate_description (InfoSuccess p) title url = Value (Some (clean d)))
  /\ ((forall c, c ∈ candidates -> ~ qualifies c) ->
      forall domain,
        Py.urlparse_netloc url = Some domain ->
        generate_description (InfoSuccess p) title url
        = Value (Some (format title ++ Py.lit " - " ++ domain))).
Proof.
  cbv zeta. split.
  - intros i d Hi Hd Hbefore. unfold generate_description.
    by rewrite (first_description_Some (description_sources p) i d).
  - intros Hnone domain Hdomain. unfold generate_description.
    by rewrite (first_description_None (description_sources p)), Hdomain.
Qed.

End DescriptionFacts.

(* ===================================================================== *)
(** ** The description generator: a batch run *)
(* ===================================================================== *)

(** A tool starts with nothing loaded and nothing printed. *)
Definition start {Msg} : Run.world Msg := Run.World [] [].

Section BatchFacts.
Import Dataset Run DescriptionGenerator.
Context {py : Py.Lib}.
Variable file : file_state.
Variable write_ok : dataset -> bool.
Variable future_result : work_item -> raising website_info.
Variable sched : nat -> nat.

(** The description a completed work item brings, if any. *)
Definition new_description (w : work_item) : option pystr :=
  match future_result w with
  | Value info =>
      match generate_description info (wi_title w) (wi_url w) with
      | Value (Some description) => Some description
      | _ => None
      end
  | Raises => None
  end.

Definition apply_result (data : dataset) (w : work_item) : dataset :=
  match new_description w with
  | Some description => set_field (link_obj w) "description" (VStr description) data
  | None => data
  end.

(** The fetch of a work item failed: the future raised, or
    [extract_website_info] returned an error status. *)
Definition fetch_failed (w : work_item) : Prop :=
  future_result w = Raises \/ exists e, future_result w = Value (InfoError e).

Lemma fetch_failed_no_description w : fetch_failed w -> new_description w = None.
Proof. unfold new_description. by intros [-> | [e ->]]. Qed.

Lemma handle_run w c st :
  exists c' msg,
    handle future_result w c st
    = (Returned c', World (apply_result (memory st) w) (trace st ++ [Print msg])).
Proof.
  destruct c as [u f]. unfold handle, apply_result, new_description.
  destruct (future_result w) as [info|]; [|by eexists _, _].
  destruct (generate_description info (wi_title w) (wi_url w)) as [[d|]|]; by eexists _, _.
Qed.

Lemma drain_run ws c st :
  exists c' msgs,
    drain future_result ws c st
    = (Returned c', World (foldl apply_result (memory st) ws) (trace st ++ (Print <$> msgs))).
Proof.
  revert c st. induction ws as [|w ws IH]; intros c st; simpl.
  - exists c, []. destruct st. simpl. by rewrite app_nil_r.
  - destruct (handle_run w c st) as (c1 & msg & Hw). unfold bind. rewrite Hw.
    destruct (IH c1 (World (apply_result (memory st) w) (trace st ++ [Print msg])))
      as (c2 & msgs & Hws).
    rewrite Hws. exists c2, (msg :: msgs). simpl. by rewrite <- app_assoc.
Qed.

(** A whole run on a loadable file: the in-memory dataset, the events and
    the value returned. *)
Lemma update_descriptions_run only_null data st :
  file = Holds data ->
  let todo := links_to_update only_null data in
  let final := foldl apply_result data (as_completed sched todo) in
  let n := Z.of_nat (length todo) in
  exists u f msgs,
    update_descriptions file write_ok future_result sched only_null st
    = (Returned (if write_ok final then Counts u f n else Counts 0 n n),
       World final
             (trace st ++ [Print (MsgFound (length todo))] ++ (Print <$> msgs)
              ++ [WriteFile final (write_ok final);
                  Print (if write_ok final then MsgSaved else MsgSaveFailed)])).
Proof.
  intros Hfile. cbv zeta. unfold update_descriptions, load_webstack_data.
  rewrite Hfile. unfold bind at 1. unfold bind at 1. simpl.
  unfold bind at 1. simpl.
  set (todo := links_to_update only_null data).
  unfold bind at 1.
  destruct (drain_run (as_completed sched todo) (0, 0)
              (World data (trace st ++ [Print (MsgFound (length todo))])))
    as ([u f] & msgs & Hdrain).
  rewrite Hdrain. simpl. exists u, f, msgs.
  unfold bind, dump, print, ret. simpl.
  destruct (write_ok _); simpl; by rewrite <- !app_assoc.
Qed.

Lemma foldl_apply_result_frame ws data r :
  (forall w, w ∈ ws -> link_obj w = r -> new_description w = None) ->
  get_link (foldl apply_result data ws) r = get_link data r.
Proof.
  revert data. induction ws as [|w ws IH]; intros data H; [done|]. simpl.
  rewrite IH; [|intros w' Hw'; apply H; by right].
  unfold apply_result. destruct (new_description w) as [d|] eqn:Hd; [|done].
  apply get_link_set_field_ne. intros Heq.
  rewrite (H w) in Hd; [done | by left | done].
Qed.

Lemma elem_of_links_to_update only_null data w :
  w ∈ links_to_update only_null data
  <-> exists cat tg link,
        (link_obj w, (cat, tg, link)) ∈ walk data
        /\ select only_null (link_obj w, (cat, tg, link)) = Some w.
Proof.
  unfold links_to_update. rewrite list_elem_of_omap. split.
  - intros ([r [[cat tg] link]] & Hin & Hsel).
    assert (link_obj w = r) as <-.
    { unfold select in Hsel. repeat case_match; by simplify_eq. }
    by exists cat, tg, link.
  - intros (cat & tg & link & Hin & Hsel). by eexists.
Qed.

(** One work item per link: the reference determines the item. *)
Lemma links_to_update_functional only_null data w1 w2 :
  w1 ∈ links_to_update only_null data ->
  w2 ∈ links_to_update only_null data ->
  link_obj w1 = link_obj w2 -> w1 = w2.
Proof.
  rewrite !elem_of_links_to_update.
  intros (c1 & t1 & l1 & Hin1 & Hs1) (c2 & t2 & l2 & Hin2 & Hs2) Heq.
  rewrite Heq in Hin1, Hs1.
  pose proof (walk_functional _ _ _ _ Hin1 Hin2) as Hv. simplify_eq. congruence.
Qed.

(** C5. When the fetch of a work item fails (the future raises, or
    [extract_website_info] returns an error status), the link entry the item
    refers to is, after the run, the entry it was before it: its description
    keeps its prior value, so a null description stays null. This holds for
    every work item of the batch and every completion order. *)
Theorem failed_fetch_keeps_entry only_null data w :
  file = Holds data ->
  w ∈ links_to_update only_null data ->
  fetch_failed w ->
  let final := memory (update_descriptions file write_ok future_result sched only_null start).2 in
  get_link final (link_obj w) = get_link data (link_obj w)
  /\ (fun link : dict => get link "description") <$> get_link final (link_obj w)
     = (fun link : dict => get link "description") <$> get_link data (link_obj w).
Proof.
  intros Hfile Hw Hfail. cbv zeta.
  destruct (update_descriptions_run only_null data start Hfile) as (u & f & msgs & Hrun).
  rewrite Hrun. simpl.
  assert (get_link (foldl apply_result data (as_completed sched (links_to_update only_null data)))
                   (link_obj w) = get_link data (link_obj w)) as ->; [|done].
  apply foldl_apply_result_frame. intros w' Hw' Href.
  apply elem_of_as_completed in Hw'.
  rewrite (links_to_update_functional only_null data w' w); [|done..].
  by apply fetch_failed_no_description.
Qed.

(** C6. With [only_null=True], a link entry whose description is not null
    before the run is the same entry after the run, whatever the fetches
    return and in whatever order they complete. *)
Theorem described_entry_unchanged data r link :
  file = Holds data ->
  get_link data r = Some link ->
  get link "description" <> VNone ->
  get_link (memory (update_descriptions file write_ok future_result sched true start).2) r
  = Some link.
Proof.
  intros Hfile Hlink Hdesc.
  destruct (update_descriptions_run true data start Hfile) as (u & f & msgs & Hrun).
  rewrite Hrun. simpl. rewrite <- Hlink.
  apply foldl_apply_result_frame. intros w Hw Href. exfalso.
  apply elem_of_as_completed, elem_of_links_to_update in Hw as (cat & tg & link' & Hin & Hsel).
  rewrite Href in Hin. apply walk_get_link in Hin.
  assert (link' = link) as -> by congruence.
  unfold select in Hsel. simpl in Hsel.
  destruct (get link "description"); [done | discriminate].
Qed.

End BatchFacts.

(* ===================================================================== *)
(** ** The logo tool: verifying the logos in the dataset *)
(* ===================================================================== *)

Section VerifyFacts.
Import Dataset Run LogoTool.
Variable file : file_state.
Variable write_ok : dataset -> bool.
Variable future_result : logo_item -> raising bool.
Variable sched : nat -> nat.

(** The probe of the item's logo came back negative. *)
Definition invalid (item : logo_item) : bool :=
  match future_result item with
  | Value false => true
  | _ => false
  end.

Definition clear_logo (link : dict) : dict := <["logo" := VStr []]> link.

Lemma invalid_true item : invalid item = true <-> future_result item = Value false.
Proof. unfold invalid. destruct (future_result item) as [[]|]; split; done. Qed.

Lemma check_one_run item st inv w :
  exists st' msg,
    check_one future_result item (st, inv) w
    = (Returned (st', inv ++ (if invalid item then [item] else [])),
       World (memory w) (trace w ++ [Print msg])).
Proof.
  unfold check_one, invalid.
  destruct (future_result item) as [[]|], (lg_title item);
    unfold bind, print, ret; simpl; rewrite ?app_nil_r; by eexists _, _.
Qed.

Lemma check_all_run items st inv w :
  exists st' msgs,
    check_all future_result items (st, inv) w
    = (Returned (st', inv ++ filter (fun item => invalid item = true) items),
       World (memory w) (trace w ++ (Print <$> msgs))).
Proof.
  revert st inv w. induction items as [|item items IH]; intros st inv w; cbn [check_all].
  - exists st, []. destruct w. unfold ret. simpl. by rewrite !app_nil_r.
  - destruct (check_one_run item st inv w) as (st1 & msg & H1). unfold bind. rewrite H1.
    destruct (IH st1 (inv ++ (if invalid item then [item] else []))
                 (World (memory w) (trace w ++ [Print msg]))) as (st2 & msgs & H2).
    rewrite H2. exists st2, (msg :: msgs). simpl. rewrite <- !app_assoc.
    rewrite filter_cons. by destruct (invalid item); case_decide.
Qed.

Lemma clear_logo_idemp link : clear_logo (clear_logo link) = clear_logo link.
Proof. unfold clear_logo. by rewrite insert_insert_eq. Qed.

Lemma get_link_clear_logos inv data r :
  get_link (clear_logos inv data) r
  = if decide (r ∈ link_ref <$> inv)
    then clear_logo <$> get_link data r
    else get_link data r.
Proof.
  unfold clear_logos. revert data. induction inv as [|item inv IH]; intros data.
  { done. }
  cbn [foldl]. rewrite fmap_cons, IH. destruct (decide (link_ref item = r)) as [Heq|Hne].
  - subst r. rewrite get_link_set_field_eq. fold clear_logo.
    destruct (decide (link_ref item ∈ link_ref <$> inv)) as [Hin|Hin];
      destruct (decide (link_ref item ∈ link_ref item :: (link_ref <$> inv))) as [Hin'|Hin'];
      try done.
    + rewrite <- option_fmap_compose. apply option_fmap_ext. intros link. apply clear_logo_idemp.
    + exfalso. apply Hin'. by right.
    + exfalso. apply Hin'. by left.
  - rewrite get_link_set_field_ne by done.
    destruct (decide (r ∈ link_ref <$> inv)) as [Hin|Hin];
      destruct (decide (r ∈ link_ref item :: (link_ref <$> inv))) as [Hin'|Hin'];
      try done.
    + exfalso. apply Hin'. by right.
    + exfalso. inversion Hin'; by subst.
Qed.

(** The three ways a run on a loadable file goes: nothing to check; every
    probe passed; some logo was invalid. *)
Lemma verify_existing_logos_run data :
  file = Holds data ->
  let items := logos_to_check data in
  let inv := filter (fun item => invalid item = true) (as_completed sched items) in
  let cleared := clear_logos inv data in
  exists out final_trace,
    verify_existing_logos file write_ok future_result sched start
    = (out, World (match inv with [] => data | _ => cleared end) final_trace)
    /\ writes final_trace
       = match inv with [] => [] | _ => [(cleared, write_ok cleared)] end
    /\ (inv = [] \/ write_ok cleared = true -> exists st, out = Returned st)
    /\ (inv <> [] -> write_ok cleared = false -> out = Exited 1).
Proof.
  intros Hfile. cbv zeta. unfold verify_existing_logos, load_webstack_data. rewrite Hfile.
  unfold bind at 1. simpl. unfold bind at 1. unfold bind at 1. simpl.
  unfold bind at 1. simpl.
  destruct (logos_to_check data) as [|item items] eqn:Hitems.
  { simpl. eexists _, _. split; [done|]. split; [done|]. split; [by eexists | done]. }
  unfold bind at 1. simpl. unfold bind at 1.
  match goal with |- context [check_all _ ?l ?a ?w] =>
    destruct (check_all_run l (fst a) (snd a) w) as (st' & msgs & Hrun) end.
  simpl in Hrun. rewrite Hrun. clear Hrun. simpl.
  set (inv := filter _ _).
  destruct inv as [|bad inv'] eqn:Hinv.
  - unfold bind, print, ret. simpl. eexists _, _. split; [done|]. split.
    + by count_writes.
    + split; [by eexists | done].
  - unfold bind at 1. unfold bind at 1. cbn -[clear_logos]. unfold bind at 1.
    cbn -[clear_logos].
    destruct (write_ok (clear_logos (bad :: inv') data)) eqn:Hok.
    + unfold bind, print, ret. cbn -[clear_logos]. eexists _, _. split; [done|]. split.
      * by count_writes.
      * split; [by eexists | done].
    + unfold bind, print, exit. cbn -[clear_logos]. eexists _, _. split; [done|]. split.
      * by count_writes.
      * split; [by intros [?|?] | done].
Qed.

Lemma elem_of_logos_to_check data item :
  item ∈ logos_to_check data
  <-> exists cat tg link,
        (link_ref item, (cat, tg, link)) ∈ walk data
        /\ select (link_ref item, (cat, tg, link)) = Some item.
Proof.
  unfold logos_to_check. rewrite list_elem_of_omap. split.
  - intros ([r [[cat tg] link]] & Hin & Hsel).
    assert (link_ref item = r) as <-.
    { unfold select in Hsel. repeat case_match; by simplify_eq. }
    by exists cat, tg, link.
  - intros (cat & tg & link & Hin & Hsel). by eexists.
Qed.

Lemma logos_to_check_functional data item1 item2 :
  item1 ∈ logos_to_check data ->
  item2 ∈ logos_to_check data ->
  link_ref item1 = link_ref item2 -> item1 = item2.
Proof.
  rewrite !elem_of_logos_to_check.
  intros (c1 & t1 & l1 & Hin1 & Hs1) (c2 & t2 & l2 & Hin2 & Hs2) Heq.
  rewrite Heq in Hin1, Hs1.
  pose proof (walk_functional _ _ _ _ Hin1 Hin2) as Hv. simplify_eq. congruence.
Qed.

(** The references cleared are those of the checked items found invalid. *)
Lemma cleared_refs data r :
  r ∈ link_ref <$> filter (fun item => invalid item = true)
                          (as_completed sched (logos_to_check data))
  <-> exists item, item ∈ logos_to_check data /\ invalid item = true /\ link_ref item = r.
Proof.
  rewrite list_elem_of_fmap. split.
  - intros (item & -> & Hin). apply list_elem_of_filter in Hin as [Hinv Hin].
    apply elem_of_as_completed in Hin. by exists item.
  - intros (item & Hin & Hinv & <-). exists item. split; [done|].
    apply list_elem_of_filter. split; [done|]. by apply elem_of_as_completed.
Qed.

Lemma verify_final_memory data :
  file = Holds data ->
  memory (verify_existing_logos file write_ok future_result sched start).2
  = clear_logos (filter (fun item => invalid item = true)
                        (as_completed sched (logos_to_check data))) data.
Proof.
  intros Hfile. destruct (verify_existing_logos_run data Hfile) as (out & tr & Hrun & _).
  rewrite Hrun. simpl. by destruct (filter _ _).
Qed.

(** C10. [verify] mutates the dataset: a link entry whose non-blank logo
    fails the probe ends with the empty string as its logo and every other
    key as it was; an entry whose logo passes, and every entry that was not
    probed, ends as it was; and the file is written (once, with the cleared
    dataset) exactly when some logo was found invalid. *)
Theorem verify_clears_invalid_logos data :
  file = Holds data ->
  let run := verify_existing_logos file write_ok future_result sched start in
  let final := memory run.2 in
  (forall item link,
      item ∈ logos_to_check data ->
      get_link data (link_ref item) = Some link ->
      future_result item = Value false ->
      exists link',
        get_link final (link_ref item) = Some link'
        /\ link' !! "logo" = Some (VStr [])
        /\ forall key, key <> "logo"%string -> link' !! key = link !! key)
  /\ (forall item,
        item ∈ logos_to_check data ->
        future_result item <> Value false ->
        get_link final (link_ref item) = get_link data (link_ref item))
  /\ (forall r,
        (forall item, item ∈ logos_to_check data -> link_ref item <> r) ->
        get_link final r = get_link data r)
  /\ (writes (trace run.2) <> []
      <-> exists item, item ∈ logos_to_check data /\ future_result item = Value false)
  /\ (writes (trace run.2) = [] \/ exists ok, writes (trace run.2) = [(final, ok)]).
Proof.
  intros Hfile. cbv zeta. rewrite (verify_final_memory data Hfile).
  split; [|split; [|split; [|split]]].
  - intros item link Hin Hlink Hbad. exists (clear_logo link).
    rewrite get_link_clear_logos, decide_True.
    + rewrite Hlink. split; [done|]. unfold clear_logo. split.
      * apply lookup_insert_eq.
      * intros key Hkey. by apply lookup_insert_ne.
    + apply cleared_refs. exists item. by rewrite invalid_true.
  - intros item Hin Hok. rewrite get_link_clear_logos, decide_False; [done|].
    rewrite cleared_refs. intros (item' & Hin' & Hbad & Href).
    rewrite (logos_to_check_functional data item' item) in Hbad by done.
    by apply invalid_true in Hbad.
  - intros r Hr. rewrite get_link_clear_logos, decide_False; [done|].
    rewrite cleared_refs. intros (item & Hin & _ & Href). by apply (Hr item).
  - destruct (verify_existing_logos_run data Hfile) as (out & tr & Hrun & Hw & _).
    rewrite Hrun. simpl. rewrite Hw. clear Hrun Hw.
    destruct (filter _ _) as [|bad inv] eqn:Hinv.
    + split; [done|]. intros (item & Hin & Hbad). exfalso.
      assert (item ∈ filter (fun item => invalid item = true)
                            (as_completed sched (logos_to_check data))) as H.
      { apply list_elem_of_filter. split; [by apply invalid_true|].
        by apply elem_of_as_completed. }
      rewrite Hinv in H. by apply elem_of_nil in H.
    + split; [|done]. intros _.
      assert (bad ∈ filter (fun item => invalid item = true)
                           (as_completed sched (logos_to_check data))) as H.
      { rewrite Hinv. left. }
      apply list_elem_of_filter in H as [Hbad H]. apply elem_of_as_completed in H.
      exists bad. by rewrite <- invalid_true.
  - destruct (verify_existing_logos_run data Hfile) as (out & tr & Hrun & Hw & _).
    rewrite Hrun. simpl. rewrite Hw.
    destruct (filter _ _); [by left | right; by eexists].
Qed.

End VerifyFacts.

(* ===================================================================== *)
(** ** Saving the dataset *)
(* ===================================================================== *)

(** C2 (as amended). When writing the dataset back fails, the description
    generator prints the failure and returns (with [updated = 0] and
    [failed = total]), and the dataset in memory is the updated one, the
    same as after a run whose write succeeds; the logo tool's
    [save_webstack_data] prints the failure, leaves the dataset in memory
    as it is and ends the process with exit status 1. *)
Theorem save_failure {py : Py.Lib} :
  (forall file write_ok future_result sched only_null data,
      file = Run.Holds data ->
      let run :=
        DescriptionGenerator.update_descriptions
          file write_ok future_result sched only_null start in
      let todo := DescriptionGenerator.links_to_update only_null data in
      let n := Z.of_nat (length todo) in
      write_ok (Run.memory run.2) = false ->
      run.1 = Run.Returned (DescriptionGenerator.Counts 0 n n)
      /\ last (Run.trace run.2) = Some (Run.Print DescriptionGenerator.MsgSaveFailed)
      /\ Run.writes (Run.trace run.2) = [(Run.memory run.2, false)]
      /\ Run.memory run.2
         = foldl (apply_result future_result) data (Run.as_completed sched todo)
      /\ Run.memory run.2
         = Run.memory
             (DescriptionGenerator.update_descriptions
                file (fun _ => true) future_result sched only_null start).2)
  /\ (forall write_ok (w : Run.world LogoTool.message),
        write_ok (Run.memory w) = false ->
        LogoTool.save_webstack_data write_ok w
        = (Run.Exited 1,
           Run.World (Run.memory w)
                     (Run.trace w ++ [Run.WriteFile (Run.memory w) false;
                                      Run.Print LogoTool.MsgSaveFailed]))).
Proof.
  split.
  - intros file write_ok future_result sched only_null data Hfile. cbv zeta.
    destruct (update_descriptions_run file write_ok future_result sched only_null data
                start Hfile) as (u & f & msgs & Hrun).
    destruct (update_descriptions_run file (fun _ => true) future_result sched only_null data
                start Hfile) as (u' & f' & msgs' & Hrun').
    rewrite Hrun, Hrun'. simpl. intros Hfail. rewrite Hfail.
    split; [done|]. split; [|split; [|done]].
    + by rewrite app_comm_cons, last_app.
    + by count_writes.
  - intros write_ok w Hfail. unfold LogoTool.save_webstack_data, Run.bind, Run.dump.
    rewrite Hfail. unfold Run.print, Run.exit. simpl. by rewrite <- app_assoc.
Qed.

(* ===================================================================== *)
(** ** Running the scripts on concrete inputs *)
(* ===================================================================== *)

Section Concrete.
Import Dataset Run.
#[local] Existing Instance Py.cpython.




(** A page whose only candidate is its meta description. *)
Definition page_with_meta (d : pystr) : DescriptionGenerator.page :=
  DescriptionGenerator.Page None (Some d) None None None None.

(** C3 (the code at the failing input). A meta description of exactly ten
    characters does not pass the test [len(desc.strip()) > 10]: the
    description is the fallback built from the title and the domain. *)
Theorem ten_characters_are_rejected :
  DescriptionGenerator.generate_description
    (DescriptionGenerator.InfoSuccess (page_with_meta (Py.lit "0123456789")))
    (VStr (Py.lit "T")) (Py.lit "https://example.com")
  = Value (Some (Py.lit "T - example.com")).
Proof. by vm_compute. Qed.

(** *** The link checker on one link *)

Definition respond (code : Z) : pystr -> Z -> LinkChecker.get_outcome :=
  fun url _ => LinkChecker.Response code url 0.

(** C1 (counterexample). A response with status code 201, a 2xx code, is
    classified [http_error], not [success]. *)
Lemma created_is_http_error :
  LinkChecker.status_name
    (LinkChecker.r_status
       (LinkChecker.check_single_link (respond 201) example_link 10 LinkChecker.init).1)
  = "http_error"%string
  /\ ~ (forall code, 200 <= code < 300 ->
        LinkChecker.status_name
          (LinkChecker.r_status
             (LinkChecker.check_single_link (respond code) example_link 10 LinkChecker.init).1)
        = "success"%string).
Proof.
  split; [by vm_compute|].
  intros H. specialize (H 201 ltac:(lia)). by vm_compute in H.
Qed.

Lemma response_status_witness :
  LinkChecker.status_name
    (LinkChecker.r_status
       (LinkChecker.check_single_link (respond 200) example_link 10 LinkChecker.init).1)
  = "success"%string.
Proof.
  refine (proj1 (response_status (respond 200) example_link 10 LinkChecker.init
                   example_url 200 example_url 0 _ _) _);
    reflexivity.
Defined.

Definition always_times_out : pystr -> Z -> LinkChecker.get_outcome :=
  fun _ _ => LinkChecker.RaisesTimeout.

Lemma timeout_is_recorded_witness :
  let r := (LinkChecker.check_single_link always_times_out example_cn_link 10 LinkChecker.init).1 in
  let c' := (LinkChecker.check_single_link always_times_out example_cn_link 10 LinkChecker.init).2 in
  LinkChecker.status_name (LinkChecker.r_status r) = "timeout"%string
  /\ LinkChecker.r_response_time r = Some (inject_Z 20)
  /\ LinkChecker.failed_links c' = [r]
  /\ LinkChecker.counter c' "timeout" = 1
  /\ LinkChecker.counter c' "failed" = 0.
Proof.
  pose proof (timeout_is_recorded always_times_out example_cn_link 10 LinkChecker.init
                (Py.lit "https://www.Example.COM.CN/path") eq_refl eq_refl) as H.
  cbv zeta in H. destruct H as (H1 & H2 & H3 & H4 & H5 & _).
  cbv zeta.
  split; [exact H1 | split; [exact H2 | split; [exact H3 | split; [exact H4 | exact H5]]]].
Defined.


Definition cn_port_link : LinkChecker.link_info :=
  LinkChecker.LinkInfo (Py.lit "https://example.cn:8080/") (VStr (Py.lit "Example"))
                       (Py.lit "Tools").


(** *** The description generator on one page *)

Definition short_meta_page : DescriptionGenerator.page :=
  DescriptionGenerator.Page (Some (Py.lit "GitHub")) (Some (Py.lit "8 chars!"))
    (Some (Py.lit "Where   the world
 builds software")) None None None.

Lemma first_candidate_in_priority_order_witness :
  DescriptionGenerator.generate_description
    (DescriptionGenerator.InfoSuccess short_meta_page)
    (VStr (Py.lit "GitHub")) (Py.lit "https://github.com")
  = Value (Some (Py.lit "Where the world builds software")).
Proof.
  refine (proj1 (first_candidate_in_priority_order short_meta_page (VStr (Py.lit "GitHub"))
                   (Py.lit "https://github.com")) 1%nat _ eq_refl _ _).
  - eexists. split; [reflexivity|]. by vm_compute.
  - intros j c Hj Hc. destruct j as [|j]; [|lia].
    injection Hc as <-. intros (d & [= <-] & Hlen). by vm_compute in Hlen.
Defined.

(** *** Batch runs on a two-link dataset *)

Definition link_entry (title url : string) (logo description : value) : dict :=
  list_to_map
    [("title", VStr (Py.lit title)); ("url", VStr (Py.lit url));
     ("logo", logo); ("description", description)]%string.

(** No description yet, no logo. *)
Definition github : dict :=
  link_entry "GitHub" "https://github.com" (VStr []) VNone.

(** Described, with a logo. *)
Definition stack_overflow : dict :=
  link_entry "Stack Overflow" "https://stackoverflow.com"
    (VStr (Py.lit "https://cdn.example.com/so.png"))
    (VStr (Py.lit "Questions and answers for developers")).

Definition sample : dataset :=
  [ Category (list_to_map [("taxonomy", VStr (Py.lit "Development"))]%string)
      (Some [ TermGroup (list_to_map [("term", VStr (Py.lit "Code"))]%string)
                        (Some [github; stack_overflow]) ]) ].

Definition github_item : DescriptionGenerator.work_item :=
  DescriptionGenerator.WorkItem (VStr (Py.lit "Development")) (VStr (Py.lit "Code"))
    (VStr (Py.lit "GitHub")) (Py.lit "https://github.com") (0, 0, 0)%nat.

Definition github_page : DescriptionGenerator.page :=
  page_with_meta (Py.lit "The world's leading AI-powered developer platform").

Definition unreachable : DescriptionGenerator.work_item -> raising DescriptionGenerator.website_info :=
  fun _ => Value (DescriptionGenerator.InfoError (Py.lit "HTTPSConnectionPool: Max retries exceeded")).

Definition reachable : DescriptionGenerator.work_item -> raising DescriptionGenerator.website_info :=
  fun _ => Value (DescriptionGenerator.InfoSuccess github_page).

Definition first_pending : nat -> nat := fun _ => 0%nat.

Lemma failed_fetch_keeps_entry_witness :
  get_link
    (memory (DescriptionGenerator.update_descriptions
               (Holds sample) (fun _ => true) unreachable first_pending true start).2)
    (0, 0, 0)%nat
  = Some github.
Proof.
  refine (proj1 (failed_fetch_keeps_entry (Holds sample) (fun _ => true) unreachable
                   first_pending true sample github_item eq_refl _ _)).
  - vm_compute. left.
  - right. by eexists.
Defined.

Lemma described_entry_unchanged_witness :
  get_link
    (memory (DescriptionGenerator.update_descriptions
               (Holds sample) (fun _ => true) reachable first_pending true start).2)
    (0, 0, 1)%nat
  = Some stack_overflow.
Proof.
  apply (described_entry_unchanged (Holds sample) (fun _ => true) reachable first_pending
           sample (0, 0, 1)%nat stack_overflow eq_refl eq_refl).
  by vm_compute.
Defined.

(** The run of the specification's end-to-end scenario, the write failing:
    the description is in memory, the counts say nothing was updated. *)
Lemma save_failure_witness :
  let run :=
    DescriptionGenerator.update_descriptions
      (Holds sample) (fun _ => false) reachable first_pending true start in
  run.1 = Returned (DescriptionGenerator.Counts 0 1 1)
  /\ last (trace run.2) = Some (Print DescriptionGenerator.MsgSaveFailed)
  /\ (fun link : dict => get link "description") <$> get_link (memory run.2) (0, 0, 0)%nat
     = Some (VStr (Py.lit "The world's leading AI-powered developer platform")).
Proof.
  pose proof (proj1 save_failure (Holds sample) (fun _ => false) reachable first_pending
                true sample eq_refl eq_refl) as (H1 & H2 & _ & H4 & _).
  cbv zeta. split; [exact H1 | split; [exact H2 |]].
  rewrite H4. by vm_compute.
Defined.

(** C2 (counterexample). In the logo tool a failed write ends the process:
    [save_webstack_data] exits with status 1, and so does a [verify] run
    that found an invalid logo. *)
Lemma logo_save_failure_exits :
  (LogoTool.save_webstack_data (fun _ => false) start).1 = Exited 1
  /\ (LogoTool.verify_existing_logos
        (Holds sample) (fun _ => false) (fun _ => Value false) first_pending start).1
     = Exited 1.
Proof. split; by vm_compute. Qed.

Definition stack_overflow_logo : LogoTool.logo_item :=
  LogoTool.LogoItem (VStr (Py.lit "Stack Overflow")) (VStr (Py.lit "https://stackoverflow.com"))
    (Py.lit "https://cdn.example.com/so.png") (0, 0, 1)%nat.

Lemma verify_clears_invalid_logos_witness :
  let run :=
    LogoTool.verify_existing_logos
      (Holds sample) (fun _ => true) (fun _ => Value false) first_pending start in
  (exists link',
      get_link (memory run.2) (0, 0, 1)%nat = Some link'
      /\ link' !! "logo"%string = Some (VStr [])
      /\ forall key, key <> "logo"%string -> link' !! key = stack_overflow !! key)
  /\ get_link (memory run.2) (0, 0, 0)%nat = Some github
  /\ writes (trace run.2) <> [].
Proof.
  pose proof (verify_clears_invalid_logos (Holds sample) (fun _ => true)
                (fun _ => Value false) first_pending sample eq_refl)
    as (Hbad & _ & Hrest & Hwrite & _).
  cbv zeta. split; [|split].
  - apply (Hbad stack_overflow_logo stack_overflow); [vm_compute; left | reflexivity..].
  - apply (Hrest (0, 0, 0)%nat). intros item Hin.
    vm_compute in Hin. apply elem_of_cons in Hin as [-> | Hin]; [done|].
    by apply elem_of_nil in Hin.
  - apply Hwrite. exists stack_overflow_logo. split; [vm_compute; left | reflexivity].
Defined.

(** *** The library model on the specification's example *)

Example netloc_example :
  Py.urlsplit_netloc (Py.lit "https://WWW.Example.com/x") = Some (Py.lit "WWW.Example.com").
Proof. by vm_compute. Qed.

Example netloc_without_slashes : Py.urlsplit_netloc (Py.lit "example.com/x") = Some [].
Proof. by vm_compute. Qed.

Example netloc_unbalanced_bracket : Py.urlsplit_netloc (Py.lit "https://[::1/x") = None.
Proof. by vm_compute. Qed.

Example collapse_example :
  Py.re_sub_spaces (Py.lit "a  b   c") = Py.lit "a b c".
Proof. reflexivity. Qed.

Example strip_example : Py.strip (Py.lit "  padded text ") = Py.lit "padded text".
Proof. reflexivity. Qed.

Example normalize_url_example :
  LinkChecker.normalize_url (Py.lit " example.cn ") = Some (Py.lit "https://example.cn").
Proof. reflexivity. Qed.

Example port_is_part_of_the_netloc :
  LinkChecker.is_china_domain (Py.lit "https://example.cn:8080/") = false
  /\ LinkChecker.is_china_domain (Py.lit "https://example.cn/") = true.
Proof. split; by vm_compute. Qed.

End Concrete.


(* ===================================================================== *)
(** ** Stripped strings *)
(* ===================================================================== *)

(** Nothing to strip at either end. *)
Definition trimmed (s : pystr) : Prop :=
  Py.lstrip s = s /\ Py.lstrip (reverse s) = reverse s.

Section StripFacts.
Import Py.

Lemma lstrip_nonspace c s : isspace c = false -> lstrip (c :: s) = c :: s.
Proof. intros H. simpl. by rewrite H. Qed.

Lemma lstrip_head s c r : lstrip s = c :: r -> isspace c = false.
Proof.
  induction s as [|d s IH]; [done|]. simpl.
  destruct (isspace d) eqn:Hd; [done|]. by intros [= <- _].
Qed.

Lemma lstrip_idem s : lstrip (lstrip s) = lstrip s.
Proof.
  destruct (lstrip s) as [|c r] eqn:H; [done|].
  apply lstrip_nonspace. by eapply lstrip_head.
Qed.

Lemma lstrip_suffix s : lstrip s `suffix_of` s.
Proof.
  induction s as [|c s IH]; [done|]. simpl.
  destruct (isspace c); [by apply suffix_cons_r | done].
Qed.

Lemma lstrip_app s k : lstrip s = s -> s <> [] -> lstrip (s ++ k) = s ++ k.
Proof.
  destruct s as [|c s]; [done|]. intros H _.
  apply lstrip_head in H. by apply lstrip_nonspace.
Qed.

Lemma strip_trimmed s : trimmed (strip s).
Proof.
  unfold trimmed, strip, rstrip. rewrite reverse_involutive, lstrip_idem. split; [|done].
  pose proof (lstrip_suffix (reverse (lstrip s))) as Hsuf.
  apply suffix_prefix_reverse in Hsuf. rewrite reverse_involutive in Hsuf.
  destruct (reverse (lstrip (reverse (lstrip s)))) as [|c r] eqn:Hr; [done|].
  apply lstrip_nonspace. destruct Hsuf as [k Hk].
  by apply (lstrip_head s c (r ++ k)).
Qed.

Lemma trimmed_strip s : trimmed s -> strip s = s.
Proof.
  intros [Hl Hr]. unfold strip, rstrip. by rewrite Hl, Hr, reverse_involutive.
Qed.

Lemma strip_idem s : strip (strip s) = strip s.
Proof. apply trimmed_strip, strip_trimmed. Qed.

Lemma trimmed_nil : trimmed [].
Proof. done. Qed.

(** Text put in front of a stripped string: still nothing to strip, when
    the text itself starts and ends with non-space characters. *)
Lemma trimmed_app a b : trimmed a -> trimmed b -> a <> [] -> b <> [] -> trimmed (a ++ b).
Proof.
  intros [Hal Har] [Hbl Hbr] Ha Hb. split.
  - by apply lstrip_app.
  - rewrite reverse_app. apply lstrip_app; [done|].
    intros H. apply (f_equal reverse) in H. by rewrite reverse_involutive in H.
Qed.

End StripFacts.

(* ===================================================================== *)
(** ** The link checker: URLs, counters and the exit status *)
(* ===================================================================== *)

(** The counter a status is counted under, and the statuses whose results
    go to [failed_links], read off the branches of [check_single_link]. *)
Definition counter_key (st : LinkChecker.status) : option string :=
  match st with
  | LinkChecker.Success => Some "success"
  | LinkChecker.Redirect => Some "redirect"
  | LinkChecker.HttpError => Some "failed"
  | LinkChecker.ConnectionError => Some "failed"
  | LinkChecker.Timeout => Some "timeout"
  | LinkChecker.SslError => Some "ssl_error"
  | LinkChecker.DnsError => Some "dns_error"
  | LinkChecker.UnknownError => Some "unknown_error"
  | LinkChecker.InvalidUrl => None
  end%string.

Definition failing (st : LinkChecker.status) : bool :=
  match st with
  | LinkChecker.Success | LinkChecker.Redirect | LinkChecker.InvalidUrl => false
  | _ => true
  end.

Section LinkBatchFacts.
Import Dataset Run LinkChecker.
Context {py : Py.Lib}.
Variable session_get : pystr -> Z -> get_outcome.

Lemma normalize_url_fixed url :
  trimmed url ->
  Py.startswith url (Py.lit "http://") || Py.startswith url (Py.lit "https://") = true ->
  normalize_url url = Some url.
Proof.
  intros Htrim Hs. destruct url as [|d u]; [by vm_compute in Hs|].
  unfold normalize_url. by rewrite (trimmed_strip _ Htrim), Hs.
Qed.

(** X1. [normalize_url] returns [None] for the empty string only; any other
    input gives a URL that starts with [http://] or [https://], and
    normalizing that URL again returns it unchanged. *)
Theorem normalize_url_idempotent (raw : pystr) :
  (normalize_url raw = None <-> raw = [])
  /\ (forall url,
        normalize_url raw = Some url ->
        (Py.lit "http://" `prefix_of` url \/ Py.lit "https://" `prefix_of` url)
        /\ normalize_url url = Some url).
Proof.
  split.
  { unfold normalize_url. destruct raw; [done|]. by destruct (_ || _). }
  intros url. unfold normalize_url at 1. destruct raw as [|c raw]; [done|].
  set (t := Py.strip (c :: raw)).
  destruct (Py.startswith t (Py.lit "http://") || Py.startswith t (Py.lit "https://")) eqn:Hs;
    intros [= <-].
  - split.
    + apply orb_true_iff in Hs as [H|H]; apply startswith_prefix in H; auto.
    + apply normalize_url_fixed; [apply strip_trimmed | done].
  - split; [right; by eexists|].
    apply normalize_url_fixed.
    + destruct (decide (t = [])) as [->|Hne]; [by vm_compute|].
      apply (trimmed_app (Py.lit "https://") t); [by vm_compute | apply strip_trimmed | done..].
    + apply orb_true_iff. right. apply startswith_prefix. by eexists.
Qed.

Definition result_of (link : link_info) : result :=
  (check_single_link session_get link 10 init).1.

Lemma check_single_link_result link timeout c c0 :
  (check_single_link session_get link timeout c).1
  = (check_single_link session_get link timeout c0).1.
Proof.
  unfold check_single_link. destruct (normalize_url (li_url link)); [|done].
  unfold record_outcome. destruct (session_get _ _); try done; by repeat case_match.
Qed.

Lemma counter_append_failed r c key : counter (append_failed r c) key = counter c key.
Proof. done. Qed.

Lemma counter_incr key key' c :
  counter (incr key c) key' = counter c key' + (if decide (key = key') then 1 else 0).
Proof.
  case_decide as H.
  - subst. apply counter_incr_eq.
  - rewrite counter_incr_ne by done. lia.
Qed.

(** One call: the counter of the result's status grows by one, no other
    counter moves, and the result joins [failed_links] exactly when its
    status is a failing one. *)
Lemma check_single_link_effect link timeout c :
  let r := (check_single_link session_get link timeout c).1 in
  let c' := (check_single_link session_get link timeout c).2 in
  (forall key,
      counter c' key
      = counter c key + (if decide (counter_key (r_status r) = Some key) then 1 else 0))
  /\ failed_links c' = failed_links c ++ (if failing (r_status r) then [r] else []).
Proof.
  cbv zeta. unfold check_single_link.
  destruct (normalize_url (li_url link)) as [url|]; simpl.
  2:{ split; [intros key; lia | by rewrite app_nil_r]. }
  unfold record_outcome.
  destruct (session_get _ _) as [code final el| |el|msg el|msg el].
  - destruct (code =? 200); [|destruct (_ && _)]; simpl;
      (split; [intros key; rewrite ?counter_append_failed, counter_incr;
               repeat case_decide; simplify_eq; lia
              | by rewrite ?app_nil_r]).
  - simpl. split; [|done]. intros key. rewrite counter_append_failed, counter_incr.
    repeat case_decide; simplify_eq; lia.
  - simpl. split; [|done]. intros key. rewrite counter_append_failed, counter_incr.
    repeat case_decide; simplify_eq; lia.
  - destruct (_ || _); simpl; (split; [|done]); intros key;
      rewrite counter_append_failed, counter_incr; repeat case_decide; simplify_eq; lia.
  - simpl. split; [|done]. intros key. rewrite counter_append_failed, counter_incr.
    repeat case_decide; simplify_eq; lia.
Qed.

Lemma run_checks_effect links c :
  (forall key,
      counter (run_checks session_get links c) key
      = counter c key
        + Z.of_nat (length (filter (fun r => counter_key (r_status r) = Some key)
                                   (result_of <$> links))))
  /\ failed_links (run_checks session_get links c)
     = failed_links c ++ filter (fun r => failing (r_status r) = true) (result_of <$> links).
Proof.
  revert c. induction links as [|link links IH]; intros c.
  { split; [intros key; simpl; lia | by rewrite app_nil_r]. }
  cbn [run_checks]. destruct (IH (check_single_link session_get link 10 c).2) as [IHc IHf].
  destruct (check_single_link_effect link 10 c) as [Hc Hf]. cbv zeta in Hc, Hf.
  rewrite (check_single_link_result link 10 c init) in Hc, Hf. fold (result_of link) in Hc, Hf.
  split.
  - intros key. rewrite IHc, Hc, fmap_cons, filter_cons.
    case_decide; simpl; lia.
  - rewrite IHf, Hf, fmap_cons, filter_cons, <- app_assoc.
    destruct (failing (r_status (result_of link))); by case_decide.
Qed.

Lemma counter_init key : counter init key = 0.
Proof.
  unfold counter, init, initial_stats. simpl.
  repeat (rewrite lookup_insert; case_decide; [done|]).
  by rewrite lookup_empty.
Qed.

Lemma counter_set_total n c key :
  counter (set_total n c) key = if decide (key = "total"%string) then n else counter c key.
Proof.
  unfold counter, set_total. simpl. rewrite lookup_insert.
  repeat case_decide; by simplify_eq.
Qed.

Lemma no_status_counts_as_total (results : list result) :
  filter (fun r => counter_key (r_status r) = Some "total"%string) results = [].
Proof.
  induction results as [|r results IH]; [done|].
  rewrite filter_cons, IH. case_decide as H; [|done]. by destruct (r_status r).
Qed.

Lemma filter_none {A} (P : A -> Prop) `{!forall x, Decision (P x)} (l : list A) :
  (forall x, x ∈ l -> ~ P x) -> filter P l = [].
Proof.
  induction l as [|a l IH]; intros Hnone; [done|]. rewrite filter_cons.
  rewrite decide_False by (apply Hnone; left). apply IH. intros x Hx. apply Hnone. by right.
Qed.

Section WithSchedulers.
Variable sched_run : nat -> nat.
Variable sched_done : nat -> nat.
Variable verbose : bool.

Lemma foldl_after_progress (results : list result) c :
  (forall key,
      counter (foldl (after_progress verbose) c results) key
      = counter c key
        + (if decide (key = "unknown_error"%string)
           then Z.of_nat (length (filter (fun r => progress_raises verbose r = true) results))
           else 0))
  /\ failed_links (foldl (after_progress verbose) c results) = failed_links c.
Proof.
  revert c. induction results as [|r results IH]; intros c.
  { split; [|done]. intros key. rewrite filter_nil. cbn. case_decide; lia. }
  cbn [foldl]. destruct (IH (after_progress verbose c r)) as [IHc IHf]. split.
  - intros key. rewrite IHc, filter_cons. unfold after_progress.
    destruct (progress_raises verbose r).
    + rewrite counter_incr, (decide_True (P := true = true)) by done.
      repeat case_decide; simplify_eq; cbn [length]; lia.
    + by rewrite (decide_False (P := false = true)) by done.
  - rewrite IHf. unfold after_progress. by destruct (progress_raises verbose r).
Qed.

Lemma check_links_batch_effect (links : list link_info) :
  let results := (check_links_batch session_get sched_run sched_done verbose links init).1 in
  let c := (check_links_batch session_get sched_run sched_done verbose links init).2 in
  results ≡ₚ (result_of <$> links)
  /\ counter c "total" = Z.of_nat (length links)
  /\ (forall key,
        key <> "total"%string ->
        counter c key
        = Z.of_nat (length (filter (fun r => counter_key (r_status r) = Some key) results))
          + (if decide (key = "unknown_error"%string)
             then Z.of_nat (length (filter (fun r => progress_raises verbose r = true) results))
             else 0))
  /\ failed_links c ≡ₚ filter (fun r => failing (r_status r) = true) results.
Proof.
  cbv zeta. unfold check_links_batch. cbn [fst snd].
  set (c0 := set_total (Z.of_nat (length links)) init).
  assert ((fun link => (check_single_link session_get link 10 c0).1) <$>
            as_completed sched_done links
          = result_of <$> as_completed sched_done links) as ->.
  { apply list_fmap_ext. intros _ link _. apply check_single_link_result. }
  destruct (run_checks_effect (as_completed sched_run links) c0) as [Hc Hf].
  destruct (foldl_after_progress (result_of <$> as_completed sched_done links)
              (run_checks session_get (as_completed sched_run links) c0)) as [Hpc Hpf].
  assert (result_of <$> as_completed sched_run links
          ≡ₚ result_of <$> as_completed sched_done links) as Hperm.
  { by rewrite !as_completed_Permutation. }
  split; [by rewrite as_completed_Permutation|]. split; [|split].
  - rewrite Hpc, decide_False by done. rewrite Hc. unfold c0.
    rewrite counter_set_total, decide_True by done.
    rewrite no_status_counts_as_total. simpl. lia.
  - intros key Hkey. rewrite Hpc, Hc. unfold c0.
    rewrite counter_set_total, decide_False, counter_init by done.
    by rewrite Hperm.
  - rewrite Hpf, Hf. unfold c0. simpl. by rewrite Hperm.
Qed.

(** X2. After [check_links_batch] on a fresh checker, [results] holds one
    result per link, [total] is the number of links, and [failed_links]
    holds exactly the results whose status is neither [success] nor
    [redirect] nor [invalid_url]. Every other counter is the number of
    results whose status is counted under it ([failed] counting both
    [http_error] and [connection_error], no counter counting
    [invalid_url]), except that in verbose mode [unknown_error] also counts
    every result with a [null] title, whatever its status; so without
    verbose mode, or without [null] titles, the counters other than
    [total] add up to the number of results that are not [invalid_url]. *)
Theorem batch_counters_match_results (links : list link_info) :
  let results := (check_links_batch session_get sched_run sched_done verbose links init).1 in
  let c := (check_links_batch session_get sched_run sched_done verbose links init).2 in
  let twice := filter (fun r => progress_raises verbose r = true) results in
  results ≡ₚ (result_of <$> links)
  /\ counter c "total" = Z.of_nat (length links)
  /\ (forall key,
        key <> "total"%string -> key <> "unknown_error"%string ->
        counter c key
        = Z.of_nat (length (filter (fun r => counter_key (r_status r) = Some key) results)))
  /\ counter c "unknown_error"
     = Z.of_nat (length (filter (fun r => counter_key (r_status r)
                                          = Some "unknown_error"%string) results))
       + Z.of_nat (length twice)
  /\ (verbose = false \/ (forall link, link ∈ links -> li_title link <> VNone) -> twice = [])
  /\ failed_links c ≡ₚ filter (fun r => failing (r_status r) = true) results.
Proof.
  destruct (check_links_batch_effect links) as (Hres & Htotal & Hkeys & Hfail).
  cbv zeta in *. split; [done|]. split; [done|]. split; [|split; [|split; [|done]]].
  - intros key Hkey Hkey'. rewrite Hkeys by done. rewrite decide_False by done. lia.
  - rewrite Hkeys by done. by rewrite decide_True by done.
  - intros Hquiet. apply filter_none. intros r Hr Hraises.
    unfold progress_raises in Hraises. destruct Hquiet as [-> | Htitles]; [done|].
    rewrite Hres in Hr. apply list_elem_of_fmap in Hr as (link & -> & Hlink).
    specialize (Htitles link Hlink).
    assert (r_title (result_of link) = li_title link) as Ht.
    { unfold result_of, check_single_link. destruct (normalize_url (li_url link)); [|done].
      unfold record_outcome. destruct (session_get _ _); try done; by repeat case_match. }
    rewrite Ht in Hraises. destruct (li_title link); [done|].
    by rewrite andb_false_r in Hraises.
Qed.


End WithSchedulers.
End LinkBatchFacts.

(* ===================================================================== *)
(** ** The description generator: what a description looks like *)
(* ===================================================================== *)

(** Every whitespace character is a space, and none follows another
    whitespace character ([prev] says whether the previous one was). *)
Fixpoint spaced (prev : bool) (s : pystr) : bool :=
  match s with
  | [] => true
  | c :: s' =>
      if Py.isspace c then (c =? 32)%N && negb prev && spaced true s'
      else spaced false s'
  end.

Section CleanFacts.
Import Py.

Lemma collapse_spaced b s : spaced b (collapse b s) = true.
Proof.
  revert b. induction s as [|c s IH]; intros b; [done|]. simpl.
  destruct (isspace c) eqn:Hc.
  - destruct b; [apply IH|]. simpl. apply IH.
  - simpl. rewrite Hc. apply IH.
Qed.

Lemma spaced_lstrip b s : spaced b s = true -> spaced false (lstrip s) = true.
Proof.
  revert b. induction s as [|c s IH]; intros b; [done|]. simpl.
  destruct (isspace c) eqn:Hc.
  - rewrite !andb_true_iff. intros [_ H]. by apply (IH true).
  - intros H. simpl. by rewrite Hc.
Qed.

Lemma spaced_prefix b p s : p `prefix_of` s -> spaced b s = true -> spaced b p = true.
Proof.
  intros [k ->]. revert b. induction p as [|c p IH]; intros b; [done|]. simpl.
  destruct (isspace c); [|apply IH].
  rewrite !andb_true_iff. intros [[-> ->] H]. by rewrite (IH true).
Qed.

Lemma spaced_app_ink b p q :
  spaced b p = true -> forallb (fun c => negb (isspace c)) q = true -> spaced b (p ++ q) = true.
Proof.
  revert b. induction p as [|c p IH]; intros b Hp Hq; simpl in *.
  - clear Hp. revert b. induction q as [|c q IHq]; intros b; [done|]. simpl in *.
    apply andb_true_iff in Hq as [Hc Hq]. apply negb_true_iff in Hc. rewrite Hc. by apply IHq.
  - destruct (isspace c); [|by apply IH].
    rewrite !andb_true_iff in *. destruct Hp as [[-> ->] Hp]. by rewrite (IH true).
Qed.

Lemma rstrip_prefix s : rstrip s `prefix_of` s.
Proof.
  unfold rstrip. apply prefix_suffix_reverse. rewrite reverse_involutive. apply lstrip_suffix.
Qed.

Lemma spaced_strip b s : spaced b s = true -> spaced false (strip s) = true.
Proof.
  intros H. unfold strip. apply (spaced_prefix _ _ (lstrip s)); [apply rstrip_prefix|].
  by apply (spaced_lstrip b).
Qed.

(** A character that is not whitespace survives collapsing and stripping. *)
Lemma ink_collapse b s c : c ∈ s -> isspace c = false -> c ∈ collapse b s.
Proof.
  intros Hin Hc. revert b. induction s as [|d s IH]; intros b; [by apply elem_of_nil in Hin|].
  simpl. apply elem_of_cons in Hin as [<- | Hin].
  - rewrite Hc. left.
  - destruct (isspace d); [destruct b|]; try right; by apply IH.
Qed.

Lemma ink_lstrip s c : c ∈ s -> isspace c = false -> c ∈ lstrip s.
Proof.
  intros Hin Hc. induction s as [|d s IH]; [done|]. simpl.
  apply elem_of_cons in Hin as [<- | Hin]; [rewrite Hc; left|].
  destruct (isspace d); [by apply IH | by right].
Qed.

Lemma ink_strip s c : c ∈ s -> isspace c = false -> c ∈ strip s.
Proof.
  intros Hin Hc. unfold strip, rstrip. rewrite elem_of_reverse.
  apply ink_lstrip; [|done]. rewrite elem_of_reverse. by apply ink_lstrip.
Qed.

Lemma strip_nonempty_ink s : strip s <> [] -> exists c, c ∈ s /\ isspace c = false.
Proof.
  intros H. destruct (strip s) as [|c r] eqn:Hs; [done|]. exists c. split.
  - assert (c ∈ strip s) as Hin by (rewrite Hs; left).
    unfold strip in Hin.
    pose proof (rstrip_prefix (lstrip s)) as [k1 Hk1].
    pose proof (lstrip_suffix s) as [k2 Hk2].
    rewrite Hk2, Hk1. rewrite !elem_of_app. auto.
  - destruct (strip_trimmed s) as [Hl _]. rewrite Hs in Hl. by apply lstrip_head in Hl.
Qed.

End CleanFacts.

Section DescriptionShape.
Import Dataset Run DescriptionGenerator.

Lemma clean_shape d :
  qualifies (Some d) ->
  clean d <> []
  /\ Py.len (clean d) <= 103
  /\ Py.lstrip (clean d) = clean d
  /\ spaced false (clean d) = true.
Proof.
  intros (d' & [= <-] & Hlen).
  set (t := Py.strip (Py.re_sub_spaces d)).
  assert (t <> []) as Ht.
  { destruct (strip_nonempty_ink d) as (c & Hin & Hc).
    - intros H. rewrite H in Hlen. by vm_compute in Hlen.
    - intros H. assert (c ∈ t) as Hct; [|rewrite H in Hct; by apply elem_of_nil in Hct].
      apply ink_strip; [|done]. by apply ink_collapse. }
  assert (spaced false t = true) as Hsp.
  { apply (spaced_strip false). apply collapse_spaced. }
  destruct (strip_trimmed (Py.re_sub_spaces d)) as [Hl _]. fold t in Hl.
  unfold clean. fold t. destruct (100 <? Py.len t) eqn:H100.
  - apply Z.ltb_lt in H100. destruct t as [|c t'] eqn:Heq; [done|].
    split; [done|]. split; [|split].
    + unfold Py.len in *. rewrite length_app, length_take.
      change (length (Py.lit "...")) with 3%nat. lia.
    + apply lstrip_nonspace. by apply lstrip_head in Hl.
    + apply spaced_app_ink; [|done].
      apply (spaced_prefix _ _ (c :: t')); [apply prefix_take | done].
  - apply Z.ltb_ge in H100. split; [done|]. split; [lia|]. by split.
Qed.

Lemma first_description_inv sources desc :
  first_description sources = Some desc ->
  exists d, Some d ∈ sources /\ qualifies (Some d) /\ desc = clean d.
Proof.
  induction sources as [|c sources IH]; [done|]. simpl.
  destruct (usable c) eqn:Hc.
  - destruct c as [d|]; [|done]. intros [= <-]. exists d.
    split; [left | split; [by apply usable_qualifies | done]].
  - intros H. destruct (IH H) as (d & Hin & Hq & ->). exists d. split; [by right | done].
Qed.

Lemma first_description_is_Some sources c :
  c ∈ sources -> qualifies c -> is_Some (first_description sources).
Proof.
  intros Hin Hq. induction sources as [|c' sources IH]; [by apply elem_of_nil in Hin|].
  simpl. destruct (usable c') eqn:Hc'.
  - apply usable_qualifies in Hc' as (d & -> & _). by eexists.
  - apply elem_of_cons in Hin as [-> | Hin]; [|by apply IH].
    apply usable_qualifies in Hq. congruence.
Qed.

Context {py : Py.Lib}.

(** X4. When some candidate of a fetched page passes the length test,
    [generate_description] returns a description, without consulting the
    URL: it is not empty, has at most 103 characters, does not start with
    whitespace, and its only whitespace is single spaces. *)
Theorem description_is_normalized (p : page) (title : value) (url : pystr) (c : option pystr) :
  c ∈ description_sources p ->
  qualifies c ->
  exists desc,
    generate_description (InfoSuccess p) title url = Value (Some desc)
    /\ desc <> []
    /\ Py.len desc <= 103
    /\ Py.lstrip desc = desc
    /\ spaced false desc = true.
Proof.
  intros Hin Hq.
  destruct (first_description_is_Some _ _ Hin Hq) as [desc Hdesc].
  exists desc. unfold generate_description. rewrite Hdesc. split; [done|].
  apply first_description_inv in Hdesc as (d & _ & Hd & ->). by apply clean_shape.
Qed.

End DescriptionShape.

(* ===================================================================== *)
(** ** The description generator: the text of the page *)
(* ===================================================================== *)

Section PageTextFacts.
Import Dataset Run DescriptionGenerator.

Lemma chunks_trimmed text : Forall (fun x => trimmed x /\ x <> []) (chunks text).
Proof.
  apply Forall_forall. intros x Hx. apply list_elem_of_In, filter_In in Hx as [Hin Hne].
  apply list_elem_of_In, list_elem_of_fmap in Hin as (y & -> & _).
  split; [apply strip_trimmed | by destruct (Py.strip y)].
Qed.

Lemma join_nonempty sep x parts : x <> [] -> join sep (x :: parts) <> [].
Proof. destruct x; [done|]. by destruct parts. Qed.

Lemma join_trimmed sep parts :
  Forall (fun x => trimmed x /\ x <> []) parts -> trimmed (join sep parts).
Proof.
  induction 1 as [|x parts [Hx Hne] Hparts IH]; [done|].
  destruct parts as [|y rest]; [done|].
  change (join sep (x :: y :: rest)) with (x ++ sep ++ join sep (y :: rest)).
  apply Forall_cons in Hparts as [[_ Hy] _].
  pose proof (join_nonempty sep y rest Hy) as HJ.
  destruct IH as [_ IHr]. destruct Hx as [Hxl _]. split.
  - by apply lstrip_app.
  - rewrite !reverse_app, <- app_assoc. apply lstrip_app; [done|].
    intros H. apply (f_equal reverse) in H. by rewrite reverse_involutive in H.
Qed.

Lemma clean_text_trimmed text : trimmed (clean_text text).
Proof. apply join_trimmed, chunks_trimmed. Qed.

(** [main_text], when there is one, has between 51 and 203 characters and
    passes the length test of [generate_description]. *)
Lemma main_text_qualifies body m :
  main_text_of body = Some m -> qualifies (Some m) /\ 50 < Py.len m <= 203.
Proof.
  unfold main_text_of. set (t := clean_text body).
  pose proof (clean_text_trimmed body) as Htrim. fold t in Htrim.
  destruct (50 <? Py.len t) eqn:H50; [|done]. apply Z.ltb_lt in H50.
  destruct (200 <? Py.len t) eqn:H200; intros [= <-].
  - apply Z.ltb_lt in H200.
    assert (Py.len (take 200 t ++ Py.lit "...") = 203) as Hlen.
    { unfold Py.len in *. rewrite length_app, length_take.
      change (length (Py.lit "...")) with 3%nat. lia. }
    split; [|lia]. exists (take 200 t ++ Py.lit "..."). split; [done|].
    rewrite trimmed_strip; [lia|]. destruct Htrim as [Hl _].
    destruct t as [|c t']; [done|]. split.
    + apply lstrip_nonspace. by apply lstrip_head in Hl.
    + rewrite reverse_app. by apply lstrip_nonspace.
  - apply Z.ltb_ge in H200. split; [|lia]. exists t. split; [done|].
    rewrite trimmed_strip by done. lia.
Qed.

Context {py : Py.Lib}.
Variable fetch : pystr -> fetched.

(** X5. When the page was fetched and parsed and its visible text, once
    cleaned, has more than 50 characters, [generate_single_description]
    returns a description made from the page (not the title-and-domain
    fallback, whose [urlparse] is never reached): not empty and of at most
    103 characters. *)
Theorem visible_text_gives_description (url : pystr) (s : scraped) :
  fetch url = Parsed s ->
  50 < Py.len (clean_text (body_text s)) ->
  exists d desc,
    Some d ∈ description_sources (page_of s)
    /\ generate_single_description fetch url = Value (Some desc)
    /\ desc = clean d
    /\ desc <> []
    /\ Py.len desc <= 103.
Proof.
  intros Hfetch Hlen. unfold generate_single_description, extract_website_info.
  rewrite Hfetch.
  destruct (main_text_of (body_text s)) as [m|] eqn:Hm.
  2:{ unfold main_text_of in Hm. by rewrite (proj2 (Z.ltb_lt _ _) Hlen) in Hm. }
  apply main_text_qualifies in Hm as Hq. destruct Hq as [Hq _].
  assert (Some m ∈ description_sources (page_of s)) as Hin.
  { unfold description_sources, page_of. simpl. rewrite Hm. do 4 right. left. }
  destruct (first_description_is_Some _ _ Hin Hq) as [desc Hdesc].
  unfold generate_description. rewrite Hdesc.
  apply first_description_inv in Hdesc as (d & Hd & Hqd & ->).
  exists d, (clean d). destruct (clean_shape d Hqd) as (? & ? & _).
  by repeat split.
Qed.

(** X6. [generate_single_description] returns [None] exactly when the
    request or the parse failed; on a parsed page it returns a description
    or raises (when all candidates are too short and [urlparse] raises). *)
Theorem no_description_iff_fetch_failed (url : pystr) :
  generate_single_description fetch url = Value None
  <-> exists e, fetch url = RequestFailed e \/ fetch url = ParseFailed e.
Proof.
  unfold generate_single_description, extract_website_info.
  destruct (fetch url) as [e|e|s].
  - split; [intros _; eauto | done].
  - split; [intros _; eauto | done].
  - split; [|by intros (e & [?|?])]. unfold generate_description.
    destruct (first_description (description_sources (page_of s))); [done|].
    by destruct (Py.urlparse_netloc url).
Qed.

End PageTextFacts.

(* ===================================================================== *)
(** ** The description generator: what a batch run changes and reports *)
(* ===================================================================== *)

Section BatchReport.
Import Dataset Run DescriptionGenerator.
Context {py : Py.Lib}.
Variable file : file_state.
Variable write_ok : dataset -> bool.
Variable future_result : work_item -> raising website_info.
Variable sched : nat -> nat.

Definition described (w : work_item) : Prop := is_Some (new_description future_result w).

Lemma handle_counts w u f st :
  exists msg,
    handle future_result w (u, f) st
    = (Returned (if decide (described w) then (u + 1, f) else (u, f + 1)),
       World (apply_result future_result (memory st) w) (trace st ++ [Print msg])).
Proof.
  unfold described, handle, apply_result, new_description.
  destruct (future_result w) as [info|].
  - destruct (generate_description info (wi_title w) (wi_url w)) as [[d|]|];
      first [rewrite decide_True by eauto | rewrite decide_False by (by intros [? ?])];
      by eexists.
  - rewrite decide_False by (by intros [? ?]). by eexists.
Qed.

Lemma drain_counts ws u f st :
  exists msgs,
    drain future_result ws (u, f) st
    = (Returned (u + Z.of_nat (length (filter described ws)),
                 f + Z.of_nat (length (filter (fun w => ~ described w) ws))),
       World (foldl (apply_result future_result) (memory st) ws)
             (trace st ++ (Print <$> msgs))).
Proof.
  revert u f st. induction ws as [|w ws IH]; intros u f st.
  - exists []. destruct st. rewrite !filter_nil. unfold drain, ret. simpl.
    by rewrite app_nil_r, !Z.add_0_r.
  - cbn [drain]. destruct (handle_counts w u f st) as (msg & Hw). unfold bind. rewrite Hw.
    rewrite !filter_cons.
    destruct (decide (described w)) as [Hd|Hd].
    + destruct (IH (u + 1) f (World (apply_result future_result (memory st) w)
                                    (trace st ++ [Print msg]))) as (msgs & Hws).
      rewrite Hws. exists (msg :: msgs). rewrite decide_False by tauto.
      cbn [length foldl memory trace fmap list_fmap]. rewrite <- app_assoc.
      by rewrite Nat2Z.inj_succ, <- Z.add_1_l, Z.add_assoc.
    + destruct (IH u (f + 1) (World (apply_result future_result (memory st) w)
                                    (trace st ++ [Print msg]))) as (msgs & Hws).
      rewrite Hws. exists (msg :: msgs). rewrite decide_True by done.
      cbn [length foldl memory trace fmap list_fmap]. rewrite <- app_assoc.
      by rewrite Nat2Z.inj_succ, <- Z.add_1_l, Z.add_assoc.
Qed.

Lemma filter_complement_length {A} (P : A -> Prop) `{!forall x, Decision (P x)} (l : list A) :
  (length (filter P l) + length (filter (fun x => ~ P x) l) = length l)%nat.
Proof. by rewrite <- length_app, filter_app_complement. Qed.

Lemma update_descriptions_counts only_null data st :
  file = Holds data ->
  let todo := links_to_update only_null data in
  let done_ := as_completed sched todo in
  let final := foldl (apply_result future_result) data done_ in
  let n := Z.of_nat (length todo) in
  exists tr,
    update_descriptions file write_ok future_result sched only_null st
    = (Returned (if write_ok final
                 then Counts (0 + Z.of_nat (length (filter described done_)))
                             (0 + Z.of_nat (length (filter (fun w => ~ described w) done_))) n
                 else Counts 0 n n),
       World final tr).
Proof.
  intros Hfile. cbv zeta. unfold update_descriptions, load_webstack_data.
  rewrite Hfile. unfold bind at 1. unfold bind at 1. simpl.
  unfold bind at 1. simpl.
  set (todo := links_to_update only_null data).
  unfold bind at 1.
  destruct (drain_counts (as_completed sched todo) 0 0
              (World data (trace st ++ [Print (MsgFound (length todo))])))
    as (msgs & Hdrain).
  rewrite Hdrain. cbn -[filter]. unfold bind, dump, print, ret. cbn -[filter].
  destruct (write_ok _); cbn -[filter]; by eexists.
Qed.

(** X7. On a loadable file whose write succeeds, [update_descriptions]
    returns [total] = the number of links enqueued, [updated] = the number
    of them whose fetch produced a description, and [failed] = the rest, so
    that [updated + failed = total], in every completion order. *)
Theorem counts_add_up only_null data :
  file = Holds data ->
  let run := update_descriptions file write_ok future_result sched only_null start in
  let todo := links_to_update only_null data in
  write_ok (memory run.2) = true ->
  exists c,
    run.1 = Returned c
    /\ total c = Z.of_nat (length todo)
    /\ updated c = Z.of_nat (length (filter described todo))
    /\ updated c + failed c = total c.
Proof.
  intros Hfile. cbv zeta.
  destruct (update_descriptions_counts only_null data start Hfile) as (tr & Hrun).
  cbv zeta in Hrun. rewrite Hrun. cbn [fst snd memory]. intros Hok. rewrite Hok.
  eexists. split; [done|]. cbn [total updated failed].
  set (todo := links_to_update only_null data).
  pose proof (filter_complement_length described (as_completed sched todo)) as Hsum.
  rewrite (Permutation_length (as_completed_Permutation sched todo)) in Hsum.
  assert (length (filter described (as_completed sched todo)) = length (filter described todo))
    as Hu by (by rewrite as_completed_Permutation).
  split; [done|]. split; lia.
Qed.

Lemma foldl_apply_result_described ws data w d :
  w ∈ ws ->
  (forall w', w' ∈ ws -> link_obj w' = link_obj w -> w' = w) ->
  new_description future_result w = Some d ->
  get_link (foldl (apply_result future_result) data ws) (link_obj w)
  = (fun link : dict => <["description" := VStr d]> link) <$> get_link data (link_obj w).
Proof.
  intros Hin Hfun Hd.
  assert (forall data,
             (forall w', w' ∈ ws -> link_obj w' = link_obj w -> w' = w) ->
             get_link (foldl (apply_result future_result) data ws) (link_obj w)
             = (if decide (link_obj w ∈ link_obj <$> ws)
                then (fun link : dict => <["description" := VStr d]> link)
                       <$> get_link data (link_obj w)
                else get_link data (link_obj w))) as H.
  { clear Hin Hfun. induction ws as [|w' ws IH]; intros data' Hfun.
    { by rewrite decide_False by apply not_elem_of_nil. }
    cbn [foldl]. rewrite fmap_cons. rewrite IH by (intros; apply Hfun; [by right | done]).
    destruct (decide (link_obj w' = link_obj w)) as [Heq|Hne].
    - assert (w' = w) as -> by (apply Hfun; [left | done]).
      unfold apply_result. rewrite Hd, get_link_set_field_eq.
      rewrite (decide_True (P := link_obj w ∈ link_obj w :: _)) by left.
      case_decide; [|done].
      rewrite <- option_fmap_compose. apply option_fmap_ext. intros link. simpl.
      by rewrite insert_insert_eq.
    - assert (get_link (apply_result future_result data' w') (link_obj w)
              = get_link data' (link_obj w)) as ->.
      { unfold apply_result. destruct (new_description future_result w'); [|done].
        by apply get_link_set_field_ne. }
      destruct (decide (link_obj w ∈ link_obj <$> ws)) as [Hin|Hin].
      + by rewrite decide_True by (by right).
      + rewrite decide_False; [done|]. intros Hin'.
        apply elem_of_cons in Hin' as [? | ?]; done. }
  rewrite H by done. rewrite decide_True; [done|]. by apply list_elem_of_fmap_2.
Qed.

(** X8. After a run, in every completion order and whether or not the
    write succeeds: a link whose fetch produced a description has that
    description and every other key as before; every other link of the
    dataset, enqueued or not, is as it was. *)
Theorem run_sets_descriptions_only only_null data :
  file = Holds data ->
  let final := memory (update_descriptions file write_ok future_result sched only_null start).2 in
  (forall w d,
      w ∈ links_to_update only_null data ->
      new_description future_result w = Some d ->
      exists link link',
        get_link data (link_obj w) = Some link
        /\ get_link final (link_obj w) = Some link'
        /\ link' !! "description"%string = Some (VStr d)
        /\ forall key, key <> "description"%string -> link' !! key = link !! key)
  /\ (forall r,
        (forall w, w ∈ links_to_update only_null data -> link_obj w = r ->
                   new_description future_result w = None) ->
        get_link final r = get_link data r).
Proof.
  intros Hfile. cbv zeta.
  destruct (update_descriptions_run file write_ok future_result sched only_null data
              start Hfile) as (u & f & msgs & Hrun).
  rewrite Hrun. simpl. split.
  - intros w d Hw Hd.
    pose proof Hw as Hwalk.
    apply elem_of_links_to_update in Hwalk as (cat & tg & link & Hin & _).
    apply walk_get_link in Hin. exists link, (<["description" := VStr d]> link).
    split; [done|]. split; [|split].
    + rewrite (foldl_apply_result_described _ _ w d); [by rewrite Hin | | | done].
      * by apply elem_of_as_completed.
      * intros w' Hw' Href. apply elem_of_as_completed in Hw'.
        by apply (links_to_update_functional only_null data).
    + apply lookup_insert_eq.
    + intros key Hkey. by apply lookup_insert_ne.
  - intros r Hr. apply foldl_apply_result_frame. intros w Hw. apply Hr.
    by apply elem_of_as_completed in Hw.
Qed.

End BatchReport.

(** X9. A file that is missing or is not valid YAML ends every tool that
    loads it before anything else happens: the description generator and
    the logo tool's [verify] exit with status 1, having written nothing and
    loaded nothing, whatever the network would have answered. *)
Theorem unreadable_file_exits {py : Py.Lib}
    (file : Run.file_state) write_ok fetches probes sched only_null :
  file = Run.Missing \/ file = Run.Malformed ->
  let d := DescriptionGenerator.update_descriptions file write_ok fetches sched only_null start in
  let v := LogoTool.verify_existing_logos file write_ok probes sched start in
  d.1 = Run.Exited 1 /\ Run.writes (Run.trace d.2) = [] /\ Run.memory d.2 = []
  /\ v.1 = Run.Exited 1 /\ Run.writes (Run.trace v.2) = [] /\ Run.memory v.2 = [].
Proof. by intros [-> | ->]. Qed.

(* ===================================================================== *)
(** ** The logo tool: probing and choosing a favicon *)
(* ===================================================================== *)

Section ProbeFacts.
Import Dataset Run LogoTool.
Context {py : Py.Lib}.
Variable session_head : pystr -> Z -> raising head_response.
Variable session_get : pystr -> Z -> raising get_response.
Variable int_of : pystr -> option Z.
Variable get_favicon_from_website : pystr -> option pystr.

(** No [HEAD] request is answered with status 200. *)
Definition no_head_succeeds : Prop :=
  forall url timeout,
    match session_head url timeout with
    | Value response => head_status response <> 200
    | Raises => True
    end.

Lemma test_favicon_url_down url timeout :
  no_head_succeeds -> test_favicon_url session_head session_get url timeout = false.
Proof.
  intros H. specialize (H url timeout). unfold test_favicon_url.
  destruct (session_head url timeout) as [r|]; [|done].
  apply Z.eqb_neq in H. by rewrite H.
Qed.

Lemma find_none_of_all_false {A} (f : A -> bool) l :
  (forall x, f x = false) -> List.find f l = None.
Proof. intros H. induction l as [|x l IH]; [done|]. simpl. by rewrite H. Qed.

Lemma best_loop_none_pass n i timeout urls best :
  (forall url, test_favicon_url session_head session_get url timeout = false) ->
  best_loop session_head session_get int_of n i timeout urls best = best.
Proof.
  intros H. revert i best. induction urls as [|u urls IH]; intros i best; [done|].
  cbn [best_loop]. unfold candidate_score. rewrite H. apply IH.
Qed.

(** X10. When no [HEAD] request succeeds (each raises or is answered with
    a status other than 200), every probe fails, and both
    [get_favicon_for_domain] and [get_best_quality_favicon] return nothing
    for a domain outside the China class; inside the class they return
    what scraping the site itself finds, if anything. *)
Theorem network_down_gives_no_favicon (domain : pystr) :
  no_head_succeeds ->
  let direct :=
    match domain with
    | [] => None
    | _ =>
        if is_china_domain domain then
          match get_favicon_from_website domain with
          | Some (c :: u) => Some (c :: u)
          | _ => None
          end
        else None
    end in
  get_favicon_for_domain (test_favicon_url session_head session_get)
    get_favicon_from_website domain = direct
  /\ get_best_quality_favicon session_head session_get int_of
       get_favicon_from_website domain = direct.
Proof.
  intros Hdown. cbv zeta.
  assert (get_favicon_for_domain (test_favicon_url session_head session_get)
            get_favicon_from_website domain
          = match domain with
            | [] => None
            | _ =>
                if is_china_domain domain then
                  match get_favicon_from_website domain with
                  | Some (c :: u) => Some (c :: u)
                  | _ => None
                  end
                else None
            end) as Hplain.
  { unfold get_favicon_for_domain. destruct domain as [|c0 d]; [done|].
    destruct (apis_to_use (c0 :: d)) as [apis timeout].
    by rewrite find_none_of_all_false by (intros; by apply test_favicon_url_down). }
  split; [exact Hplain|].
  unfold get_best_quality_favicon. destruct domain as [|c0 d]; [done|].
  destruct (apis_to_use (c0 :: d)) as [apis timeout] eqn:Hapis.
  rewrite best_loop_none_pass by (intros; by apply test_favicon_url_down).
  cbn [fst]. exact Hplain.
Qed.

(** The loop keeps the first candidate among those of highest score, when
    that score is above the starting one. *)
Lemma best_loop_spec n timeout urls i0 b s0 :
  let cs := candidate_score session_head session_get int_of n in
  let out := best_loop session_head session_get int_of n i0 timeout urls (b, s0) in
  (out = (b, s0)
   /\ forall j u s, urls !! j = Some u -> cs (i0 + j)%nat timeout u = Some s -> s <= s0)
  \/ (exists j u,
         urls !! j = Some u /\ out.1 = Some u
         /\ cs (i0 + j)%nat timeout u = Some out.2
         /\ s0 < out.2
         /\ forall k u' s',
             urls !! k = Some u' -> cs (i0 + k)%nat timeout u' = Some s' ->
             s' <= out.2 /\ ((k < j)%nat -> s' < out.2)).
Proof.
  cbv zeta. revert i0 b s0. induction urls as [|u urls IH]; intros i0 b s0.
  { left. split; [done|]. by intros j u s Hj. }
  cbn [best_loop].
  destruct (candidate_score session_head session_get int_of n i0 timeout u) as [s|] eqn:Hs.
  - cbn [snd]. destruct (s0 <? s) eqn:Hlt; [apply Z.ltb_lt in Hlt | apply Z.ltb_ge in Hlt].
    + destruct (IH (S i0) (Some u) s) as [[Heq Hall] | (j & u' & Hj & Hb & Hcs & Hgt & Hall)].
      * right. exists 0%nat, u. rewrite Heq, Nat.add_0_r. cbn [fst snd].
        split; [done|]. split; [done|]. split; [done|]. split; [done|].
        intros k u' s' Hk Hcs. destruct k as [|k].
        -- injection Hk as <-. rewrite Nat.add_0_r in Hcs.
           assert (s' = s) by congruence. lia.
        -- split; [|lia]. apply (Hall k u'); [done|].
           by rewrite Nat.add_succ_comm.
      * right. exists (S j), u'. rewrite <- Nat.add_succ_comm.
        split; [done|]. split; [done|]. split; [done|]. split; [lia|].
        intros k u2 s2 Hk Hcs2. destruct k as [|k].
        -- injection Hk as <-. rewrite Nat.add_0_r in Hcs2. split; [|intros _]; simplify_eq; lia.
        -- rewrite <- Nat.add_succ_comm in Hcs2. destruct (Hall k u2 s2 Hk Hcs2) as [? ?].
           split; [done|]. intros ?. apply H0. lia.
    + destruct (IH (S i0) b s0) as [[Heq Hall] | (j & u' & Hj & Hb & Hcs & Hgt & Hall)].
      * left. split; [done|]. intros k u' s' Hk Hcs. destruct k as [|k].
        -- injection Hk as <-. rewrite Nat.add_0_r in Hcs. simplify_eq. lia.
        -- apply (Hall k u'); [done|]. by rewrite Nat.add_succ_comm.
      * right. exists (S j), u'. rewrite <- Nat.add_succ_comm.
        split; [done|]. split; [done|]. split; [done|]. split; [lia|].
        intros k u2 s2 Hk Hcs2. destruct k as [|k].
        -- injection Hk as <-. rewrite Nat.add_0_r in Hcs2. split; [|intros _]; simplify_eq; lia.
        -- rewrite <- Nat.add_succ_comm in Hcs2. destruct (Hall k u2 s2 Hk Hcs2) as [? ?].
           split; [done|]. intros ?. apply H0. lia.
  - destruct (IH (S i0) b s0) as [[Heq Hall] | (j & u' & Hj & Hb & Hcs & Hgt & Hall)].
    + left. split; [done|]. intros k u' s' Hk Hcs. destruct k as [|k].
      * injection Hk as <-. rewrite Nat.add_0_r in Hcs. congruence.
      * apply (Hall k u'); [done|]. by rewrite Nat.add_succ_comm.
    + right. exists (S j), u'. rewrite <- Nat.add_succ_comm.
      split; [done|]. split; [done|]. split; [done|]. split; [lia|].
      intros k u2 s2 Hk Hcs2. destruct k as [|k].
      * injection Hk as <-. rewrite Nat.add_0_r in Hcs2. congruence.
      * rewrite <- Nat.add_succ_comm in Hcs2. destruct (Hall k u2 s2 Hk Hcs2) as [? ?].
        split; [done|]. intros ?. apply H0. lia.
Qed.

Lemma startswith_app s k p : Py.startswith s p = true -> Py.startswith (s ++ k) p = true.
Proof. rewrite !startswith_prefix. intros H. by apply prefix_app_r. Qed.

Lemma contains_app_l needle hay k :
  Py.contains needle hay = true -> Py.contains needle (hay ++ k) = true.
Proof.
  induction hay as [|c hay IH]; simpl.
  - rewrite orb_false_r. intros H. apply startswith_prefix, prefix_nil_inv in H. subst.
    by destruct k.
  - intros H. apply orb_true_iff in H as [H|H]; apply orb_true_iff.
    + left. by apply (startswith_app (c :: hay)).
    + right. by apply IH.
Qed.

(** Every template of either list starts with text, and the last template
    of either list names [faviconkit]. *)
Lemma candidate_nonempty domain t :
  t ∈ (apis_to_use domain).1 -> format_template t domain <> [].
Proof.
  unfold apis_to_use. destruct (is_china_domain domain); cbn [fst]; intros H;
    unfold china_favicon_apis, favicon_apis in H;
    repeat (apply elem_of_cons in H as [-> | H]; [by vm_compute|]);
    by apply elem_of_nil in H.
Qed.

Lemma last_candidate_bonus domain t :
  (apis_to_use domain).1 !! 6%nat = Some t ->
  length (apis_to_use domain).1 = 7%nat
  /\ Py.contains (Py.lit "faviconkit") (format_template t domain) = true.
Proof.
  unfold apis_to_use. destruct (is_china_domain domain); cbn [fst]; intros [= <-];
    (split; [done|]);
    change (format_template [Text "https://api.faviconkit.com/"; Domain; Text "/128"] domain)
      with (Py.lit "https://api.faviconkit.com/" ++ (domain ++ Py.lit "/128" ++ []));
    by apply contains_app_l.
Qed.

Lemma apis_length domain : length (apis_to_use domain).1 = 7%nat.
Proof. unfold apis_to_use. by destruct (is_china_domain domain). Qed.

(** A candidate that passes has a score above zero. *)
Lemma candidate_score_positive domain i t s :
  (apis_to_use domain).1 !! i = Some t ->
  candidate_score session_head session_get int_of (length (apis_to_use domain).1) (S i)
    (apis_to_use domain).2 (format_template t domain) = Some s ->
  0 < s.
Proof.
  intros Ht. pose proof (lookup_lt_Some _ _ _ Ht) as Hlt. rewrite apis_length in *.
  unfold candidate_score. destruct (test_favicon_url _ _ _ _); [|done].
  destruct (check_logo_quality _ _ _) as [|ct fs q w]; [done|]. intros [= <-].
  destruct (decide (i = 6%nat)) as [->|Hne].
  - apply last_candidate_bonus in Ht as [_ Hb]. unfold score. rewrite Hb. cbn [orb].
    destruct fs;
      repeat match goal with |- context [if ?b then _ else _] => destruct b end; lia.
  - unfold score.
    destruct fs;
      repeat match goal with |- context [if ?b then _ else _] => destruct b end; lia.
Qed.

(** X11. In quality mode, when at least one candidate passes the probe and
    the quality check, [get_best_quality_favicon] returns the candidate of
    highest score, and among candidates of equal score the one whose
    template comes first. *)
Theorem quality_mode_keeps_best (domain : pystr) (i : nat) (u : pystr) (s : Z) :
  let apis := (apis_to_use domain).1 in
  let timeout := (apis_to_use domain).2 in
  let urls := (fun t => format_template t domain) <$> apis in
  let cs := fun j url =>
    candidate_score session_head session_get int_of (length apis) (S j) timeout url in
  domain <> [] ->
  urls !! i = Some u ->
  cs i u = Some s ->
  exists j best sb,
    get_best_quality_favicon session_head session_get int_of
      get_favicon_from_website domain = Some best
    /\ urls !! j = Some best
    /\ cs j best = Some sb
    /\ forall k u' s',
        urls !! k = Some u' -> cs k u' = Some s' -> s' <= sb /\ ((k < j)%nat -> s' < sb).
Proof.
  cbv zeta. intros Hne Hu Hs.
  unfold get_best_quality_favicon. destruct domain as [|c0 d] eqn:Hdom; [done|].
  rewrite <- Hdom in *. clear Hne.
  destruct (apis_to_use domain) as [apis timeout] eqn:Hapis. cbn [fst snd] in *.
  assert (apis = (apis_to_use domain).1) as Hapis1 by (by rewrite Hapis).
  assert (timeout = (apis_to_use domain).2) as Htimeout by (by rewrite Hapis).
  assert (0 < s) as Hpos.
  { apply list_lookup_fmap_Some in Hu as (t & -> & Ht).
    apply (candidate_score_positive domain i t).
    - by rewrite <- Hapis1.
    - by rewrite <- Hapis1, <- Htimeout. }
  destruct (best_loop_spec (length apis) timeout
              ((fun t => format_template t domain) <$> apis) 1 None 0)
    as [[_ Hall] | (j & best & Hj & Hb & Hcs & Hgt & Hall)].
  - exfalso. specialize (Hall i u s Hu Hs). lia.
  - cbv zeta in Hb, Hcs, Hall. rewrite Hb.
    assert (best <> []) as Hbest.
    { apply list_lookup_fmap_Some in Hj as (t & -> & Ht).
      apply candidate_nonempty. rewrite <- Hapis1. by eapply list_elem_of_lookup_2. }
    destruct best as [|cb best']; [done|].
    eexists j, (cb :: best'), _. split; [done|]. split; [done|]. split; [exact Hcs|].
    intros k u' s' Hk Hcs'. by apply (Hall k u').
Qed.

End ProbeFacts.

(* ===================================================================== *)
(** ** The logo tool: filling in the missing logos *)
(* ===================================================================== *)

Section UpdateFacts.
Import Dataset Run LogoTool.
Context {py : Py.Lib}.
Variable file : file_state.
Variable answer : pystr.
Variable write_ok : dataset -> bool.
Variable future_result : nat -> pystr -> raising (option pystr).
Variable sched : nat -> nat.

Definition link_of (v : visit) : dict := v.2.2.

(** The jobs in completion order and the table they leave. *)
Definition jobs_of (data : dataset) : list (nat * pystr) :=
  as_completed sched (imap (fun i (m : value * value * pystr) => (i, m.2)) (omap missing (walk data))).

Definition table_of (data : dataset) : gmap (list N) (option pystr) :=
  foldl (record_favicon future_result) ∅ (jobs_of data).

Definition apply_favicon (table : gmap (list N) (option pystr)) (data : dataset) (v : visit)
  : dataset :=
  match favicon_for table (link_of v) with
  | Some favicon_url => set_field v.1 "logo" (VStr favicon_url) data
  | None => data
  end.

Definition gets_favicon (table : gmap (list N) (option pystr)) (v : visit) : Prop :=
  is_Some (favicon_for table (link_of v)).

Definition stays_blank (table : gmap (list N) (option pystr)) (v : visit) : Prop :=
  blank_logo (link_of v) = true /\ favicon_for table (link_of v) = None.

Lemma update_link_step table data u f v :
  update_link table (data, (u, f)) v
  = (apply_favicon table data v,
     (u + (if decide (gets_favicon table v) then 1 else 0),
      f + (if decide (stays_blank table v) then 1 else 0))).
Proof.
  destruct (decide (gets_favicon table v)) as [Hg|Hg],
    (decide (stays_blank table v)) as [Hs|Hs];
    revert Hg Hs; destruct v as [r [[cat tg] link]];
    unfold gets_favicon, stays_blank, update_link, apply_favicon, favicon_for, link_of;
    cbn [fst snd]; intros Hg Hs; rewrite ?Z.add_0_r.
  - destruct Hs as [_ Hs]. rewrite Hs in Hg. by destruct Hg.
  - destruct (blank_logo link); [|by destruct Hg].
    destruct (table !! domain_of_link link) as [[[|c t]|]|]; by try destruct Hg.
  - destruct Hs as [-> Hs]. by rewrite Hs.
  - destruct (blank_logo link); [|done].
    destruct (table !! domain_of_link link) as [[[|c t]|]|];
      first [ by destruct Hs | by destruct Hg; eauto ].
Qed.

Lemma foldl_update_link table vs data u f :
  foldl (update_link table) (data, (u, f)) vs
  = (foldl (apply_favicon table) data vs,
     (u + Z.of_nat (length (filter (gets_favicon table) vs)),
      f + Z.of_nat (length (filter (stays_blank table) vs)))).
Proof.
  revert data u f. induction vs as [|v vs IH]; intros data u f.
  { rewrite !filter_nil. simpl. by rewrite !Z.add_0_r. }
  cbn [foldl]. rewrite update_link_step, IH, !filter_cons.
  destruct (decide (gets_favicon table v)), (decide (stays_blank table v));
    cbn [length]; rewrite ?Nat2Z.inj_succ, <- ?Z.add_1_l, ?Z.add_assoc, ?Z.add_0_r; done.
Qed.

Lemma print_all_run msgs (w : world update_message) :
  print_all msgs w = (Returned tt, World (memory w) (trace w ++ (Print <$> msgs))).
Proof.
  revert w. induction msgs as [|m msgs IH]; intros w.
  - destruct w. simpl. unfold ret. by rewrite app_nil_r.
  - cbn [print_all]. unfold bind, print at 1. rewrite IH. simpl. by rewrite <- app_assoc.
Qed.

(** A run on a loadable file. [proceeds] says that there is something to
    fetch and that the user did not decline. *)
Lemma update_missing_logos_batch_run dry_run data :
  file = Holds data ->
  let missing_logos := omap missing (walk data) in
  let n := Z.of_nat (length missing_logos) in
  let declined := dry_run && negb (bool_decide (Py.lower answer = Py.lit "y")) in
  let proceeds := negb (bool_decide (missing_logos = [])) && negb declined in
  let table := table_of data in
  let updated_data := foldl (apply_favicon table) data (walk data) in
  let updated := Z.of_nat (length (filter (gets_favicon table) (walk data))) in
  let failed := Z.of_nat (length (filter (stays_blank table) (walk data))) in
  exists tr,
    update_missing_logos_batch file answer write_ok future_result sched dry_run start
    = (if proceeds then
         if (0 <? updated) && negb (write_ok updated_data) then Exited 1
         else Returned (UpdateStats n updated failed)
       else Returned (UpdateStats n 0 0),
       World (if proceeds then updated_data else data) tr)
    /\ writes tr
       = if proceeds && (0 <? updated) then [(updated_data, write_ok updated_data)] else [].
Proof.
  intros Hfile. cbv zeta. unfold update_missing_logos_batch, scan_missing_logos, load_for_update.
  rewrite Hfile. unfold bind at 1. cbn [print start memory trace app].
  unfold bind at 1. unfold bind at 1. unfold bind at 1. cbn [set_memory memory trace ret].
  destruct (omap missing (walk data)) as [|m ms] eqn:Hmissing.
  { unfold bind, print, ret. cbn. eexists. by split. }
  rewrite (bool_decide_eq_false_2 (m :: ms = [])) by done. cbn [negb andb].
  set (declined := dry_run && negb (bool_decide (Py.lower answer = Py.lit "y"))).
  unfold bind at 1. cbn [print memory trace].
  unfold bind at 1.
  assert (exists tr0,
             (if dry_run
              then print (UMsgPreview ((fun m0 : value * value * pystr => (m0.1.1, m0.2))
                                         <$> m :: ms))
              else ret ())
               {| memory := data;
                  trace := [Print UMsgScanning] ++ [Print (UMsgFound (length (m :: ms)))] |}
             = (Returned tt, World data tr0) /\ writes tr0 = []) as (tr0 & -> & Htr0).
  { destruct dry_run; unfold print, ret; cbn; eexists; by split. }
  destruct declined eqn:Hdeclined.
  { unfold bind, print, ret. cbn. eexists. split; [done|]. by count_writes. }
  unfold set_memory, ret. cbn [memory trace].
  assert (as_completed sched (imap (fun i (m0 : value * value * pystr) => (i, m0.2)) (m :: ms))
          = jobs_of data) as Hjobs by (unfold jobs_of; by rewrite Hmissing).
  rewrite !Hjobs. fold (table_of data). cbn [negb andb].
  unfold bind at 1. unfold bind at 1. cbn [memory trace].
  unfold bind at 1. cbn [print memory trace].
  unfold bind at 1. rewrite print_all_run. cbn [memory trace].
  unfold bind at 1. cbn [print memory trace].
  rewrite foldl_update_link. rewrite !Z.add_0_l.
  set (updated := Z.of_nat (length (filter (gets_favicon (table_of data)) (walk data)))).
  set (failed := Z.of_nat (length (filter (stays_blank (table_of data)) (walk data)))).
  set (updated_data := foldl (apply_favicon (table_of data)) data (walk data)).
  unfold bind at 1. cbn [set_memory memory trace].
  destruct (0 <? updated) eqn:Hupd.
  - unfold bind at 1. unfold bind at 1. unfold save_for_update.
    unfold bind at 1. unfold dump. cbn [memory trace].
    destruct (write_ok updated_data) eqn:Hok.
    + unfold bind, print, ret. cbn [memory trace negb andb]. eexists. split; [done|].
      count_writes. by rewrite Htr0.
    + unfold bind, print, exit. cbn [memory trace negb andb]. eexists. split; [done|].
      count_writes. by rewrite Htr0.
  - unfold bind, print, ret. cbn [memory trace negb andb]. eexists. split; [done|].
    count_writes. by rewrite Htr0.
Qed.

Lemma favicon_for_Some table link favicon_url :
  favicon_for table link = Some favicon_url ->
  blank_logo link = true /\ favicon_url <> []
  /\ table !! domain_of_link link = Some (Some favicon_url).
Proof.
  unfold favicon_for. destruct (blank_logo link); [|done].
  destruct (table !! domain_of_link link) as [[[|c t]|]|]; try done.
  intros [= <-]. by split.
Qed.

(** What the table holds for a domain was put there by a job for that
    domain. *)
Lemma record_favicon_provenance jobs table domain entry :
  foldl (record_favicon future_result) table jobs !! domain = Some entry ->
  table !! domain = Some entry
  \/ exists job, job ∈ jobs /\ job.2 = domain
       /\ (future_result job.1 job.2 = Value entry
           \/ (future_result job.1 job.2 = Raises /\ entry = None)).
Proof.
  revert table. induction jobs as [|job jobs IH]; intros table; cbn [foldl]; [by left|].
  intros H. apply IH in H as [H | (job' & Hin & Hdom & Hres)].
  - unfold record_favicon in H. destruct (decide (job.2 = domain)) as [Heq|Hne].
    + right. exists job. split; [left|]. split; [done|].
      destruct (future_result job.1 job.2) as [fav|]; rewrite Heq, lookup_insert_eq in H.
      * left. congruence.
      * right. split; [done | congruence].
    + left. by destruct (future_result job.1 job.2); rewrite lookup_insert_ne in H.
  - right. exists job'. split; [by right | done].
Qed.

Lemma table_of_Some data domain favicon_url :
  table_of data !! domain = Some (Some favicon_url) ->
  exists i, future_result i domain = Value (Some favicon_url).
Proof.
  intros H. apply record_favicon_provenance in H as [H | (job & _ & <- & [H | [_ H]])].
  - by rewrite lookup_empty in H.
  - by exists job.1.
  - done.
Qed.

Lemma foldl_apply_favicon_frame table vs data r :
  (forall v, v ∈ vs -> v.1 = r -> favicon_for table (link_of v) = None) ->
  get_link (foldl (apply_favicon table) data vs) r = get_link data r.
Proof.
  revert data. induction vs as [|v vs IH]; intros data Hr; [done|].
  cbn [foldl]. rewrite IH by (intros; apply Hr; [by right | done]).
  unfold apply_favicon. destruct (favicon_for table (link_of v)) as [fav|] eqn:Hf; [|done].
  apply get_link_set_field_ne. intros Heq. rewrite (Hr v) in Hf; [done | left | done].
Qed.

Lemma foldl_apply_favicon_set table vs data v favicon_url :
  v ∈ vs ->
  (forall v', v' ∈ vs -> v'.1 = v.1 -> v' = v) ->
  favicon_for table (link_of v) = Some favicon_url ->
  get_link (foldl (apply_favicon table) data vs) v.1
  = (fun link : dict => <["logo" := VStr favicon_url]> link) <$> get_link data v.1.
Proof.
  intros Hin Hfun Hf.
  assert (forall data,
             (forall v', v' ∈ vs -> v'.1 = v.1 -> v' = v) ->
             get_link (foldl (apply_favicon table) data vs) v.1
             = (if decide (v.1 ∈ fst <$> vs)
                then (fun link : dict => <["logo" := VStr favicon_url]> link)
                       <$> get_link data v.1
                else get_link data v.1)) as H.
  { clear Hin Hfun. induction vs as [|v' vs IH]; intros data' Hfun.
    { by rewrite decide_False by apply not_elem_of_nil. }
    cbn [foldl]. rewrite fmap_cons. rewrite IH by (intros; apply Hfun; [by right | done]).
    destruct (decide (v'.1 = v.1)) as [Heq|Hne].
    - assert (v' = v) as -> by (apply Hfun; [left | done]).
      unfold apply_favicon. rewrite Hf, get_link_set_field_eq.
      rewrite (decide_True (P := v.1 ∈ v.1 :: _)) by left.
      case_decide; [|done].
      rewrite <- option_fmap_compose. apply option_fmap_ext. intros link. simpl.
      by rewrite insert_insert_eq.
    - assert (get_link (apply_favicon table data' v') v.1 = get_link data' v.1) as ->.
      { unfold apply_favicon. destruct (favicon_for table (link_of v')); [|done].
        by apply get_link_set_field_ne. }
      destruct (decide (v.1 ∈ fst <$> vs)) as [Hin|Hin].
      + by rewrite decide_True by (by right).
      + rewrite decide_False; [done|]. intros Hin'.
        apply elem_of_cons in Hin' as [? | ?]; done. }
  rewrite H by done. rewrite decide_True; [done|]. by apply list_elem_of_fmap_2.
Qed.

Definition is_blank (v : visit) : Prop := blank_logo (link_of v) = true.

Lemma blank_split table vs :
  (length (filter (gets_favicon table) vs) + length (filter (stays_blank table) vs)
   = length (filter is_blank vs))%nat.
Proof.
  induction vs as [|v vs IH]; [done|]. rewrite !filter_cons.
  destruct (decide (gets_favicon table v)) as [Hg|Hg],
    (decide (stays_blank table v)) as [Hs|Hs], (decide (is_blank v)) as [Hb|Hb];
    cbn [length]; try lia; exfalso;
    unfold gets_favicon, stays_blank, is_blank in *.
  - destruct Hs as [_ Hs]. rewrite Hs in Hg. by destruct Hg.
  - destruct Hs as [_ Hs]. rewrite Hs in Hg. by destruct Hg.
  - destruct Hg as [fav Hg]. by apply favicon_for_Some in Hg as [? _].
  - by destruct Hs.
  - destruct (favicon_for table (link_of v)) eqn:Hf; [by apply Hg | by apply Hs].
Qed.

Lemma missing_blank vs :
  (length (omap missing vs) <= length (filter is_blank vs))%nat.
Proof.
  induction vs as [|v vs IH]; [done|]. rewrite filter_cons. cbn [omap list_omap].
  fold (omap missing vs).
  destruct (missing v) eqn:Hm.
  - rewrite decide_True; [cbn [length]; lia|].
    destruct v as [r [[cat tg] link]]. unfold missing in Hm. unfold is_blank, link_of.
    cbn [snd]. by destruct (blank_logo link).
  - case_decide; cbn [length]; lia.
Qed.

(** X12. After a run on a loadable file, in every completion order, whatever
    is typed at the prompt and whether or not the write succeeds, each link
    of the dataset is either as it was, or it had a blank logo and differs
    only in [logo], which is now a non-empty favicon address that a fetch
    for the link's own domain returned. No link appears or disappears. *)
Theorem update_fills_only_blank_logos dry_run data :
  file = Holds data ->
  let final :=
    memory (update_missing_logos_batch file answer write_ok future_result sched dry_run start).2 in
  forall r,
    match get_link data r with
    | None => get_link final r = None
    | Some link =>
        get_link final r = Some link
        \/ (blank_logo link = true
            /\ exists i favicon_url,
                 favicon_url <> []
                 /\ future_result i (domain_of_link link) = Value (Some favicon_url)
                 /\ get_link final r = Some (<["logo" := VStr favicon_url]> link))
    end.
Proof.
  intros Hfile. cbv zeta.
  destruct (update_missing_logos_batch_run dry_run data Hfile) as (tr & Hrun & _).
  rewrite Hrun. cbn [snd memory]. intros r.
  destruct (negb (bool_decide (omap missing (walk data) = [])) && _).
  2:{ destruct (get_link data r); [by left | done]. }
  destruct (get_link data r) as [link|] eqn:Hlink.
  - apply get_link_walk in Hlink as Hwalk. destruct Hwalk as (cat & tg & Hwalk).
    destruct (favicon_for (table_of data) link) as [fav|] eqn:Hf.
    + right. apply favicon_for_Some in Hf as Hfav. destruct Hfav as (Hb & Hne & Htable).
      split; [done|]. apply table_of_Some in Htable as [i Hi]. exists i, fav.
      split; [done|]. split; [done|].
      rewrite (foldl_apply_favicon_set _ _ _ (r, (cat, tg, link)) fav); [|done| |done].
      * cbn [fst]. by rewrite Hlink.
      * intros [r' x] Hin Heq. cbn [fst] in Heq. subst r'. f_equal.
        by apply (walk_functional data r).
    + left. rewrite foldl_apply_favicon_frame; [done|].
      intros [r' [[cat' tg'] link']] Hin Heq. cbn [fst] in Heq. subst r'.
      pose proof (walk_functional _ _ _ _ Hin Hwalk) as Hx. by simplify_eq.
  - rewrite foldl_apply_favicon_frame; [done|].
    intros [r' [[cat' tg'] link']] Hin Heq. cbn [fst] in Heq. subst r'.
    apply walk_get_link in Hin. congruence.
Qed.

(** X13. In preview mode an answer whose lower case is not [y] ends the run
    there: the statistics report the number of entries found and no update
    or failure, nothing is fetched into the dataset and nothing is
    written. *)
Theorem declined_preview_changes_nothing data :
  file = Holds data ->
  Py.lower answer <> Py.lit "y" ->
  let run := update_missing_logos_batch file answer write_ok future_result sched true start in
  run.1 = Returned (UpdateStats (Z.of_nat (length (omap missing (walk data)))) 0 0)
  /\ memory run.2 = data
  /\ writes (trace run.2) = [].
Proof.
  intros Hfile Hanswer. cbv zeta.
  destruct (update_missing_logos_batch_run true data Hfile) as (tr & Hrun & Hwrites).
  rewrite Hrun. cbn [fst snd memory trace]. rewrite Hwrites.
  rewrite (bool_decide_eq_false_2 (Py.lower answer = Py.lit "y")) by done.
  cbn [negb andb]. by rewrite !andb_false_r.
Qed.

(** X14. When there is something to fetch and the run is not declined, every
    link with a blank logo is counted once, as updated or as failed; the
    entries scanned are at most that many, since a blank logo whose address
    yields no domain is not scanned but is counted as failed. The file is
    written once, with the dataset in memory, exactly when some logo was
    updated, and the run exits with status 1 exactly when that write
    fails. *)
Theorem update_counts_every_blank_logo dry_run data :
  file = Holds data ->
  omap missing (walk data) <> [] ->
  dry_run = false \/ Py.lower answer = Py.lit "y" ->
  let run := update_missing_logos_batch file answer write_ok future_result sched dry_run start in
  let blank := Z.of_nat (length (filter is_blank (walk data))) in
  match run.1 with
  | Returned stats =>
      total_scanned stats = Z.of_nat (length (omap missing (walk data)))
      /\ total_scanned stats <= blank
      /\ us_updated stats + us_failed stats = blank
      /\ writes (trace run.2)
         = if 0 <? us_updated stats then [(memory run.2, true)] else []
  | Exited code =>
      code = 1 /\ writes (trace run.2) = [(memory run.2, false)]
  end.
Proof.
  intros Hfile Hmissing Hgo. cbv zeta.
  destruct (update_missing_logos_batch_run dry_run data Hfile) as (tr & Hrun & Hwrites).
  rewrite Hrun. cbn [fst snd memory trace]. rewrite Hwrites.
  rewrite (bool_decide_eq_false_2 (omap missing (walk data) = [])) by done.
  assert (dry_run && negb (bool_decide (Py.lower answer = Py.lit "y")) = false) as ->.
  { destruct Hgo as [-> | ->]; [done|]. rewrite bool_decide_eq_true_2 by done.
    by rewrite andb_false_r. }
  cbn [negb andb].
  pose proof (blank_split (table_of data) (walk data)) as Hsplit.
  pose proof (missing_blank (walk data)) as Hle.
  destruct (0 <? _) eqn:Hupd; cbn [andb].
  - destruct (write_ok _) eqn:Hok; cbn [negb].
    + cbn [total_scanned us_updated us_failed]. rewrite Hupd.
      split; [done|]. split; [lia|]. split; [lia | done].
    + done.
  - cbn [total_scanned us_updated us_failed]. rewrite Hupd.
    split; [done|]. split; [lia|]. split; [lia | done].
Qed.

End UpdateFacts.

(* ===================================================================== *)
(** ** The logo tool: the statistics of [verify] *)
(* ===================================================================== *)

Section VerifyStatsFacts.
Import Dataset Run LogoTool.
Variable file : file_state.
Variable write_ok : dataset -> bool.
Variable future_result : logo_item -> raising bool.
Variable sched : nat -> nat.

(** The probe returned a verdict. *)
Definition probed (item : logo_item) : bool :=
  match future_result item with Value _ => true | Raises => false end.

Definition passed (item : logo_item) : bool :=
  match future_result item with Value true => true | _ => false end.

(** The probe returned a verdict and the progress line then failed on a
    [null] title. *)
Definition counted_twice (item : logo_item) : bool :=
  probed item && match lg_title item with VNone => true | VStr _ => false end.

Definition tally (P : logo_item -> bool) (items : list logo_item) : Z :=
  Z.of_nat (length (filter (fun item => P item = true) items)).

Lemma tally_cons P item items :
  tally P (item :: items) = (if P item then 1 else 0) + tally P items.
Proof.
  unfold tally. rewrite filter_cons. destruct (P item); [|done].
  rewrite decide_True by done. cbn [length]. lia.
Qed.

Lemma tally_Permutation P items items' : items ≡ₚ items' -> tally P items = tally P items'.
Proof. intros H. unfold tally. by rewrite H. Qed.

Lemma tally_le P items : 0 <= tally P items <= Z.of_nat (length items).
Proof. unfold tally. pose proof (length_filter (fun item => P item = true) items). lia. Qed.

Lemma check_one_stats item st inv w :
  exists st' msg,
    check_one future_result item (st, inv) w
    = (Returned (st', inv ++ (if invalid future_result item then [item] else [])),
       World (memory w) (trace w ++ [Print msg]))
    /\ vs_total st' = vs_total st
    /\ vs_checked st' = vs_checked st + (if probed item then 1 else 0)
    /\ vs_valid st' = vs_valid st + (if passed item then 1 else 0)
    /\ vs_invalid st'
       = vs_invalid st + (if passed item then 0 else 1) + (if counted_twice item then 1 else 0).
Proof.
  unfold check_one, invalid, probed, passed, counted_twice, probed.
  destruct (future_result item) as [[]|], (lg_title item);
    unfold bind, print, ret; cbn; rewrite ?app_nil_r; eexists _, _;
    (split; [done|]); cbn; lia.
Qed.

Lemma check_all_stats items st inv w :
  exists st' msgs,
    check_all future_result items (st, inv) w
    = (Returned (st', inv ++ filter (fun item => invalid future_result item = true) items),
       World (memory w) (trace w ++ (Print <$> msgs)))
    /\ vs_total st' = vs_total st
    /\ vs_checked st' = vs_checked st + tally probed items
    /\ vs_valid st' = vs_valid st + tally passed items
    /\ vs_invalid st'
       = vs_invalid st + (Z.of_nat (length items) - tally passed items)
         + tally counted_twice items.
Proof.
  revert st inv w. induction items as [|item items IH]; intros st inv w; cbn [check_all].
  - exists st, []. destruct w. unfold ret, tally. cbn. rewrite !app_nil_r.
    split; [done|]. lia.
  - destruct (check_one_stats item st inv w) as (st1 & msg & H1 & Ht & Hc & Hv & Hi).
    unfold bind. rewrite H1.
    destruct (IH st1 (inv ++ (if invalid future_result item then [item] else []))
                 (World (memory w) (trace w ++ [Print msg])))
      as (st2 & msgs & H2 & Ht2 & Hc2 & Hv2 & Hi2).
    rewrite H2. exists st2, (msg :: msgs). cbn [memory trace]. split.
    + rewrite <- !app_assoc. rewrite filter_cons. rewrite fmap_cons.
      by destruct (invalid future_result item); case_decide.
    + rewrite !tally_cons. cbn [length]. destruct (passed item); lia.
Qed.

(** X15. The statistics [verify] returns: [total] is the number of non-blank
    logos, [checked] the number of probes that returned a verdict, [valid]
    the number that passed. [invalid] counts every logo that did not pass,
    and once more each entry with a [null] title whose probe returned a
    verdict, so [valid + invalid] exceeds [total] by the number of those
    entries. *)
Theorem verify_statistics data stats :
  file = Holds data ->
  (verify_existing_logos file write_ok future_result sched start).1 = Returned stats ->
  let items := logos_to_check data in
  vs_total stats = Z.of_nat (length items)
  /\ vs_checked stats = tally probed items
  /\ vs_valid stats = tally passed items
  /\ vs_valid stats + vs_invalid stats = vs_total stats + tally counted_twice items
  /\ vs_checked stats <= vs_total stats.
Proof.
  intros Hfile. cbv zeta. unfold verify_existing_logos, load_webstack_data. rewrite Hfile.
  unfold bind at 1. simpl. unfold bind at 1. unfold bind at 1. simpl.
  unfold bind at 1. simpl.
  destruct (logos_to_check data) as [|item items] eqn:Hitems.
  { simpl. intros [= <-]. unfold tally. by cbn. }
  unfold bind at 1. simpl. unfold bind at 1.
  match goal with |- context [check_all _ ?l ?a ?w] =>
    destruct (check_all_stats l (fst a) (snd a) w)
      as (st' & msgs & Hrun & Ht & Hc & Hv & Hi) end.
  cbn [fst snd vs_total vs_checked vs_valid vs_invalid] in Hrun, Ht, Hc, Hv, Hi.
  rewrite Hrun. clear Hrun.
  rewrite (tally_Permutation probed _ _ (as_completed_Permutation sched (item :: items)))
    in Hc.
  rewrite (tally_Permutation passed _ _ (as_completed_Permutation sched (item :: items)))
    in Hv, Hi.
  rewrite (tally_Permutation counted_twice _ _
             (as_completed_Permutation sched (item :: items))) in Hi.
  rewrite (Permutation_length (as_completed_Permutation sched (item :: items))) in Hi.
  pose proof (tally_le probed (item :: items)) as Hle.
  assert (forall out : outcome verify_stats,
             (out = Returned st' \/ out = Exited 1) -> out = Returned stats ->
             vs_total stats = Z.of_nat (length (item :: items))
             /\ vs_checked stats = tally probed (item :: items)
             /\ vs_valid stats = tally passed (item :: items)
             /\ vs_valid stats + vs_invalid stats
                = vs_total stats + tally counted_twice (item :: items)
             /\ vs_checked stats <= vs_total stats) as Hout.
  { intros out [-> | ->]; [|done]. intros [= <-]. cbn [length] in *. lia. }
  match goal with |- ?o = _ -> _ =>
    assert (exists out, o = out /\ (out = Returned st' \/ out = Exited 1))
      as (out & -> & Hcase) end; [|by apply Hout].
  clear Hout. cbn [memory trace]. set (inv := filter _ _).
  destruct inv as [|bad inv'].
  - unfold bind, print, ret. cbn. eexists. split; [done | by left].
  - unfold bind at 1. unfold bind at 1. cbn -[clear_logos]. unfold bind at 1.
    cbn -[clear_logos].
    destruct (write_ok (clear_logos (bad :: inv') data)) eqn:Hok.
    + unfold bind, print, ret. cbn -[clear_logos]. eexists. split; [done | by left].
    + unfold bind, print, exit. cbn -[clear_logos]. eexists. split; [done | by right].
Qed.

End VerifyStatsFacts.

(* ===================================================================== *)
(** ** The logo tool: the first candidate that passes *)
(* ===================================================================== *)

Section FirstCandidate.
Import LogoTool.
Context {py : Py.Lib}.
Variable test_favicon_url : pystr -> Z -> bool.
Variable get_favicon_from_website : pystr -> option pystr.

Lemma find_first {A} (f : A -> bool) (l : list A) x :
  List.find f l = Some x ->
  exists i, l !! i = Some x /\ f x = true
            /\ forall j y, (j < i)%nat -> l !! j = Some y -> f y = false.
Proof.
  induction l as [|a l IH]; [done|]. cbn [List.find]. destruct (f a) eqn:Ha.
  - intros [= <-]. exists 0%nat. split; [done|]. split; [done|]. intros; lia.
  - intros H. apply IH in H as (i & Hi & Hx & Hbefore). exists (S i).
    split; [done|]. split; [done|]. intros [|j] y Hj Hy.
    + cbn in Hy. by simplify_eq.
    + apply (Hbefore j); [lia | done].
Qed.

Lemma find_none_all {A} (f : A -> bool) (l : list A) :
  List.find f l = None -> forall y, y ∈ l -> f y = false.
Proof.
  induction l as [|a l IH]; intros H y Hy; [by apply elem_of_nil in Hy|].
  cbn [List.find] in H. destruct (f a) eqn:Ha; [done|].
  apply elem_of_cons in Hy as [-> | Hy]; [done | by apply IH].
Qed.

(** X16. The favicon [get_favicon_for_domain] returns is the first address,
    in the order of the templates of the domain's class, that passes the
    probe with the class's timeout; only when no address passes, and only
    for a domain of the extended class, it is the non-empty address found on
    the site itself. *)
Theorem favicon_is_first_passing_candidate (domain favicon_url : pystr) :
  get_favicon_for_domain test_favicon_url get_favicon_from_website domain = Some favicon_url ->
  let urls := (fun t => format_template t domain) <$> (apis_to_use domain).1 in
  let timeout := (apis_to_use domain).2 in
  domain <> []
  /\ ((exists i, urls !! i = Some favicon_url
                 /\ test_favicon_url favicon_url timeout = true
                 /\ forall j u, (j < i)%nat -> urls !! j = Some u ->
                                test_favicon_url u timeout = false)
      \/ (is_china_domain domain = true
          /\ (forall u, u ∈ urls -> test_favicon_url u timeout = false)
          /\ get_favicon_from_website domain = Some favicon_url
          /\ favicon_url <> [])).
Proof.
  unfold get_favicon_for_domain. cbv zeta. destruct domain as [|c d]; [done|].
  destruct (apis_to_use (c :: d)) as [apis timeout] eqn:Hapis. cbn [fst snd].
  destruct (List.find _ _) as [u|] eqn:Hfind.
  - intros [= <-]. split; [done|]. left. by apply find_first in Hfind.
  - destruct (is_china_domain (c :: d)) eqn:Hcn; [|done].
    destruct (get_favicon_from_website (c :: d)) as [[|c' u]|] eqn:Hsite; try done.
    intros [= <-]. split; [done|]. right. split; [done|].
    split; [|done]. intros u' Hu'. by apply (find_none_all _ _ Hfind).
Qed.

End FirstCandidate.

(* ===================================================================== *)
(** ** The properties above on concrete runs *)
(* ===================================================================== *)

Section ConcreteRuns.
Import Dataset Run.
#[local] Existing Instance Py.cpython.

Definition github_meta : pystr := Py.lit "The world's leading AI-powered developer platform".

Lemma description_is_normalized_witness :
  exists desc,
    DescriptionGenerator.generate_description
      (DescriptionGenerator.InfoSuccess github_page) (VStr (Py.lit "GitHub"))
      (Py.lit "https://github.com")
    = Value (Some desc)
    /\ desc <> [] /\ Py.len desc <= 103 /\ Py.lstrip desc = desc /\ spaced false desc = true.
Proof.
  apply (description_is_normalized github_page (VStr (Py.lit "GitHub"))
           (Py.lit "https://github.com") (Some github_meta)).
  - vm_compute. left.
  - exists github_meta. split; [reflexivity | by vm_compute].
Defined.

(** A page with nothing but visible text. *)
Definition text_only : DescriptionGenerator.scraped :=
  DescriptionGenerator.Scraped None None None None None
    (Py.lit "  GitHub is where  over 100 million developers shape the future of software  ").

Definition serves_text : pystr -> DescriptionGenerator.fetched :=
  fun _ => DescriptionGenerator.Parsed text_only.

Lemma visible_text_gives_description_witness :
  exists d desc,
    Some d ∈ DescriptionGenerator.description_sources (DescriptionGenerator.page_of text_only)
    /\ DescriptionGenerator.generate_single_description serves_text (Py.lit "https://github.com")
       = Value (Some desc)
    /\ desc = DescriptionGenerator.clean d
    /\ desc <> []
    /\ Py.len desc <= 103.
Proof.
  apply (visible_text_gives_description serves_text (Py.lit "https://github.com") text_only).
  - reflexivity.
  - by vm_compute.
Defined.

Lemma counts_add_up_witness :
  let run :=
    DescriptionGenerator.update_descriptions
      (Holds sample) (fun _ => true) reachable first_pending true start in
  let todo := DescriptionGenerator.links_to_update true sample in
  exists c,
    run.1 = Returned c
    /\ DescriptionGenerator.total c = Z.of_nat (length todo)
    /\ DescriptionGenerator.updated c = Z.of_nat (length (filter (described reachable) todo))
    /\ DescriptionGenerator.updated c + DescriptionGenerator.failed c
       = DescriptionGenerator.total c.
Proof.
  exact (counts_add_up (Holds sample) (fun _ => true) reachable first_pending true sample
           eq_refl eq_refl).
Defined.

Lemma run_sets_descriptions_only_witness :
  let final :=
    memory (DescriptionGenerator.update_descriptions
              (Holds sample) (fun _ => false) reachable first_pending true start).2 in
  (exists link link',
      get_link sample (0, 0, 0)%nat = Some link
      /\ get_link final (0, 0, 0)%nat = Some link'
      /\ link' !! "description"%string = Some (VStr github_meta)
      /\ forall key, key <> "description"%string -> link' !! key = link !! key)
  /\ get_link final (0, 0, 1)%nat = get_link sample (0, 0, 1)%nat.
Proof.
  pose proof (run_sets_descriptions_only (Holds sample) (fun _ => false) reachable
                first_pending true sample eq_refl) as [Hset Hframe].
  cbv zeta. split.
  - apply (Hset github_item github_meta); [vm_compute; left | reflexivity].
  - apply Hframe. intros w Hw Href. vm_compute in Hw.
    apply elem_of_cons in Hw as [-> | Hw]; [done | by apply elem_of_nil in Hw].
Defined.

Lemma unreadable_file_exits_witness :
  (DescriptionGenerator.update_descriptions
     Missing (fun _ => true) reachable first_pending true start).1 = Exited 1
  /\ (LogoTool.verify_existing_logos
        Missing (fun _ => true) (fun _ => Value true) first_pending start).1 = Exited 1.
Proof.
  pose proof (unreadable_file_exits Missing (fun _ => true) reachable (fun _ => Value true)
                first_pending true (or_introl eq_refl)) as (Hd & _ & _ & Hv & _).
  by split.
Defined.

(** *** Probing favicons *)

Definition no_network : pystr -> Z -> raising LogoTool.head_response :=
  fun _ _ => Raises.

Definition no_page : pystr -> Z -> raising LogoTool.get_response :=
  fun _ _ => Raises.

Lemma network_down_gives_no_favicon_witness :
  LogoTool.get_favicon_for_domain (LogoTool.test_favicon_url no_network no_page)
    (fun _ => None) (Py.lit "github.com") = None
  /\ LogoTool.get_best_quality_favicon no_network no_page (fun _ => None) (fun _ => None)
       (Py.lit "github.com") = None.
Proof.
  exact (network_down_gives_no_favicon no_network no_page (fun _ => None) (fun _ => None)
           (Py.lit "github.com") (fun _ _ => I)).
Defined.

(** Every address answers with a 4 KB PNG. *)
Definition serves_png : pystr -> Z -> raising LogoTool.head_response :=
  fun _ _ =>
    Value (LogoTool.HeadResponse 200 (Some (Py.lit "image/png")) (Some (Py.lit "4096"))).

Lemma quality_mode_keeps_best_witness :
  exists best,
    LogoTool.get_best_quality_favicon serves_png no_page (fun _ => Some 4096) (fun _ => None)
      (Py.lit "github.com") = Some best.
Proof.
  destruct (quality_mode_keeps_best serves_png no_page (fun _ => Some 4096) (fun _ => None)
              (Py.lit "github.com") 0%nat
              (LogoTool.format_template (hd [] LogoTool.favicon_apis) (Py.lit "github.com"))
              (LogoTool.score (length LogoTool.favicon_apis) 1
                 (LogoTool.format_template (hd [] LogoTool.favicon_apis) (Py.lit "github.com"))
                 (Some 4096)))
    as (j & best & sb & Hbest & _).
  - done.
  - by vm_compute.
  - by vm_compute.
  - by exists best.
Defined.

Lemma favicon_is_first_passing_candidate_witness :
  exists favicon_url i,
    LogoTool.get_favicon_for_domain (fun _ _ => true) (fun _ => None) (Py.lit "github.com")
    = Some favicon_url
    /\ ((fun t => LogoTool.format_template t (Py.lit "github.com"))
          <$> (LogoTool.apis_to_use (Py.lit "github.com")).1) !! i = Some favicon_url.
Proof.
  destruct (LogoTool.get_favicon_for_domain (fun _ _ => true) (fun _ => None)
              (Py.lit "github.com")) as [u|] eqn:Hu; [|by vm_compute in Hu].
  destruct (favicon_is_first_passing_candidate (fun _ _ => true) (fun _ => None)
              (Py.lit "github.com") u Hu) as (_ & [(i & Hi & _) | (Hcn & _)]).
  - by exists u, i.
  - by vm_compute in Hcn.
Defined.

(** *** Filling in and verifying logos *)

Definition horse : pystr := Py.lit "https://icon.horse/icon/github.com".

Definition finds_horse : nat -> pystr -> raising (option pystr) :=
  fun _ _ => Value (Some horse).

Lemma update_fills_only_blank_logos_witness :
  let final :=
    memory (LogoTool.update_missing_logos_batch
              (Holds sample) (Py.lit "Y") (fun _ => true) finds_horse first_pending true
              start).2 in
  (get_link final (0, 0, 0)%nat = Some github
   \/ (LogoTool.blank_logo github = true
       /\ exists i favicon_url,
            favicon_url <> []
            /\ finds_horse i (LogoTool.domain_of_link github) = Value (Some favicon_url)
            /\ get_link final (0, 0, 0)%nat = Some (<["logo" := VStr favicon_url]> github)))
  /\ get_link final (0, 0, 1)%nat = Some stack_overflow.
Proof.
  pose proof (update_fills_only_blank_logos (Holds sample) (Py.lit "Y") (fun _ => true)
                finds_horse first_pending true sample eq_refl) as H.
  cbv zeta in H. cbv zeta. split.
  - exact (H (0, 0, 0)%nat).
  - destruct (H (0, 0, 1)%nat) as [Hsame | [Hblank _]]; [exact Hsame | by vm_compute in Hblank].
Defined.

Lemma declined_preview_changes_nothing_witness :
  let run :=
    LogoTool.update_missing_logos_batch
      (Holds sample) (Py.lit "no") (fun _ => true) finds_horse first_pending true start in
  run.1 = Returned (LogoTool.UpdateStats 1 0 0)
  /\ memory run.2 = sample
  /\ writes (trace run.2) = [].
Proof.
  pose proof (declined_preview_changes_nothing (Holds sample) (Py.lit "no") (fun _ => true)
                finds_horse first_pending sample eq_refl) as H.
  cbv zeta in H. cbv zeta.
  destruct H as (Hout & Hmem & Hwrites); [by vm_compute|].
  split; [|by split]. rewrite Hout. by vm_compute.
Defined.

Lemma update_counts_every_blank_logo_witness :
  let run :=
    LogoTool.update_missing_logos_batch
      (Holds sample) [] (fun _ => true) finds_horse first_pending false start in
  exists stats,
    run.1 = Returned stats
    /\ LogoTool.us_updated stats + LogoTool.us_failed stats = 1
    /\ writes (trace run.2) = [(memory run.2, true)].
Proof.
  pose proof (update_counts_every_blank_logo (Holds sample) [] (fun _ => true) finds_horse
                first_pending false sample eq_refl) as H.
  cbv zeta in H. cbv zeta.
  destruct ((LogoTool.update_missing_logos_batch
               (Holds sample) [] (fun _ => true) finds_horse first_pending false start).1)
    as [stats|code] eqn:Hout.
  - destruct H as (_ & _ & Hsum & Hwrites); [by vm_compute | by left |].
    exists stats. split; [done|]. split; [rewrite Hsum; by vm_compute|].
    rewrite Hwrites. vm_compute in Hout. injection Hout as <-. done.
  - by vm_compute in Hout.
Defined.

Lemma verify_statistics_witness :
  let items := LogoTool.logos_to_check sample in
  let stats := LogoTool.VerifyStats 1 1 0 1 in
  LogoTool.vs_total stats = Z.of_nat (length items)
  /\ LogoTool.vs_checked stats = tally (probed (fun _ => Value true)) items
  /\ LogoTool.vs_valid stats = tally (passed (fun _ => Value true)) items
  /\ LogoTool.vs_valid stats + LogoTool.vs_invalid stats
     = LogoTool.vs_total stats + tally (counted_twice (fun _ => Value true)) items
  /\ LogoTool.vs_checked stats <= LogoTool.vs_total stats.
Proof.
  apply (verify_statistics (Holds sample) (fun _ => true) (fun _ => Value true) first_pending
           sample (LogoTool.VerifyStats 1 1 0 1) eq_refl).
  by vm_compute.
Defined.

End ConcreteRuns.
